(** * HR_Diagram_Maker: a shallow embedding of the H-R diagram script

    The script loads a star table, classifies every row through a fixed
    dictionary, and composes a four-axis scatter chart.  Python objects
    live in a heap indexed by references, so that the in-place column
    assignments of [map_star_types] are visible through every alias.
    An [int64] cell is a [Z] and arithmetic on an all-integer column wraps
    at 2^63 as numpy's does; a [float64] cell is an exact rational [Q]:
    rounding, overflow to infinity and NaN cells are not modelled. *)

From Stdlib Require Import QArith Lqa.
From stdpp Require Import base option list strings gmap pretty.

Local Open Scope string_scope.
Local Open Scope Z_scope.
Local Open Scope list_scope.

(** ** Cells, columns and tables *)

(** A cell of a pandas column. *)
Inductive value : Type :=
  | VInt (z : Z)
  | VFloat (q : Q)
  | VStr (s : string).

(** Python's [==] on cells: numbers compare by numeric value, strings by
    content, and a number never equals a string. *)
Definition value_eqb (a b : value) : bool :=
  match a, b with
  | VInt x, VInt y => x =? y
  | VInt x, VFloat q | VFloat q, VInt x => Qeq_bool (inject_Z x) q
  | VFloat p, VFloat q => Qeq_bool p q
  | VStr s, VStr t => String.eqb s t
  | _, _ => false
  end.

(** The integer a cell hashes and compares equal to, when there is one:
    [3] and [3.0] address the same dictionary slot, a string never
    addresses an integer key. *)
Definition dict_key (v : value) : option Z :=
  match v with
  | VInt z => Some z
  | VFloat q => if (Zpos (Qden (Qred q)) =? 1) then Some (Qnum (Qred q)) else None
  | VStr _ => None
  end.

(** The number a cell stands for in arithmetic. *)
Definition as_number (v : value) : option Q :=
  match v with
  | VInt z => Some (inject_Z z)
  | VFloat q => Some q
  | VStr _ => None
  end.

(** A [DataFrame]: named columns, all of the same length. *)
Abbreviation Series := (list value).
Abbreviation DataFrame := (gmap string (list value)).

(** [Series.unique()]: the distinct cells in order of first appearance. *)
Fixpoint unique_from (seen : list value) (s : Series) : Series :=
  match s with
  | [] => []
  | x :: s' =>
      if existsb (value_eqb x) seen then unique_from seen s'
      else x :: unique_from (x :: seen) s'
  end.

Definition unique (s : Series) : Series := unique_from [] s.

(** [s[mask]]: the cells at the positions where the mask holds. *)
Fixpoint select (mask : list bool) (s : Series) : Series :=
  match mask, s with
  | b :: mask', x :: s' => if b then x :: select mask' s' else select mask' s'
  | _, _ => []
  end.

(** [df[mask]]: the same selection in every column. *)
Definition boolean_index (d : DataFrame) (mask : list bool) : DataFrame :=
  select mask <$> d.

(** [df.empty]: some axis has length 0, i.e. no column holds a row. *)
Definition df_empty (d : DataFrame) : bool :=
  bool_decide (map_Forall (λ _ s, s = []) d).

(** [min()] and [max()] of the numbers of a column; [None] is the NaN that
    pandas returns on an empty column. *)
Definition extremum (pick : Q → Q → Q) (qs : list Q) : option Q :=
  match qs with
  | [] => None
  | q :: qs' => Some (foldl pick q qs')
  end.

Definition Qmin' (a b : Q) : Q := if Qle_bool a b then a else b.
Definition Qmax' (a b : Q) : Q := if Qle_bool a b then b else a.

(** ** Exceptions *)

Inductive exn : Type :=
  | KeyError (key : value)
  | ValueError (msg : string)
  | TypeError
  | IndexError.

(** What the [try] block of [load_data] raises, each with its [str()]:
    whatever the CSV reader raised, or the [ValueError] of the
    validation. *)
Inductive load_exn : Type :=
  | ReaderError (msg : string)
  | MissingColumns (msg : string).

Definition load_exn_str (e : load_exn) : string :=
  match e with
  | ReaderError msg | MissingColumns msg => msg
  end.

#[global] Instance sum_ret {E} : MRet (sum E) := λ A a, inr a.
#[global] Instance sum_bind {E} : MBind (sum E) := λ A B f m,
  match m with
  | inr a => f a
  | inl e => inl e
  end.

(** [df[col]] on a table value. *)
Definition column (d : DataFrame) (col : string) : exn + Series :=
  match d !! col with
  | Some s => inr s
  | None => inl (KeyError (VStr col))
  end.

(** [Series.map(f)]: cells are visited in order and the first exception
    aborts the whole mapping. *)
Fixpoint series_map (f : value → exn + value) (s : Series) : exn + Series :=
  match s with
  | [] => inr []
  | x :: s' => y ← f x; ys ← series_map f s'; inr (y :: ys)
  end.

(** The numbers of a column, for arithmetic on it. *)
Fixpoint numbers (s : Series) : exn + list Q :=
  match s with
  | [] => inr []
  | x :: s' =>
      match as_number x with
      | Some q => qs ← numbers s'; inr (q :: qs)
      | None => inl TypeError
      end
  end.

(** The number a reduction of a column returns: a [numpy.int64] when every
    cell of the column is an integer, a [float64] otherwise, NaN on a
    column without rows. *)
Inductive scalar : Type :=
  | Int64 (z : Z)
  | Float64 (q : Q)
  | NaN.

Definition int64_column (s : Series) : bool :=
  forallb (λ v, match v with VInt _ => true | _ => false end) s.

Definition scalar_of (s : Series) (m : option Q) : scalar :=
  match m with
  | None => NaN
  | Some q => if int64_column s then Int64 (Qnum q) else Float64 q
  end.

Definition series_min (s : Series) : exn + scalar :=
  qs ← numbers s; inr (scalar_of s (extremum Qmin' qs)).

Definition series_max (s : Series) : exn + scalar :=
  qs ← numbers s; inr (scalar_of s (extremum Qmax' qs)).

(** Two's-complement wrap-around of a 64-bit integer. *)
Definition wrap64 (z : Z) : Z := (z + 2 ^ 63) mod 2 ^ 64 - 2 ^ 63.

(** [x + k] and [x - k] for a Python integer [k]: an [int64] stays an
    [int64] and wraps. *)
Definition scalar_add (x : scalar) (k : Z) : scalar :=
  match x with
  | Int64 z => Int64 (wrap64 (z + k))
  | Float64 q => Float64 (q + inject_Z k)
  | NaN => NaN
  end.

(** [x * f] for a Python float [f]: the result is a float. *)
Definition scalar_mul (x : scalar) (f : Q) : scalar :=
  match x with
  | Int64 z => Float64 (inject_Z z * f)
  | Float64 q => Float64 (q * f)
  | NaN => NaN
  end.

(** The float an axis limit is converted to; [None] is NaN. *)
Definition to_float (x : scalar) : option Q :=
  match x with
  | Int64 z => Some (inject_Z z)
  | Float64 q => Some q
  | NaN => None
  end.

(** [s.iloc[0]] *)
Definition iloc0 (s : Series) : exn + value :=
  match s with
  | x :: _ => inr x
  | [] => inl IndexError
  end.

(** ** The star-type dictionary of [map_star_types] *)

Definition star_type_map : gmap Z (string * Z * string) :=
  <[0 := ("Red Dwarf", 30, "red")]>
  (<[1 := ("Brown Dwarf", 20, "maroon")]>
  (<[2 := ("White Dwarf", 25, "green")]>
  (<[3 := ("Main Sequence", 50, "blue")]>
  (<[4 := ("Giant", 80, "orange")]>
  (<[5 := ("Supergiant", 100, "purple")]> ∅))))).

(** [star_type_map[x]]: a [KeyError] carrying the offending key when the
    cell addresses no entry. *)
Definition star_type_lookup (x : value) : exn + (string * Z * string) :=
  match dict_key x ≫= (star_type_map !!.) with
  | Some t => inr t
  | None => inl (KeyError x)
  end.

(** ** The chart

    Modelled from the spec: the chart-rendering collaborator (matplotlib),
    which is not part of the repository.  The spec gives its interface: it
    accepts scatter layers and axis specifications and draws them.  An
    [Axes] is therefore the specification the script has handed over so
    far.  Limits are a (first, second) pair whose order is the direction
    of the axis, and inverting an axis exchanges the two.  Three
    documented reactions of the library to a setter are part of the
    model: setting ticks widens the limits until every tick is inside
    them, a logarithmic axis ignores a limit that is not positive, and a
    [LogLocator] thins its ticks out by the number of decades it spans.
    An axis whose limits were never set holds the placeholder (0, 1)
    where the library would compute limits from the data; spreading
    limits that binary64 cannot tell apart, and everything else the
    library does when it draws, is outside the model.  Font sizes,
    paddings, transparency, outlines, tick lengths, the legend anchor and
    the layout call are cosmetic and are not recorded. *)

Inductive scale : Type := Linear | Log.

Inductive formatter : Type := DefaultFormatter | ScalarFormatter.

(** [LogLocator(base, subs, numticks)]: ticks at the multiples [subs] of
    the integer powers of [base]. *)
Record LogLocator : Type := mkLogLocator {
  loc_base : Q;
  loc_subs : list Q;
  loc_numticks : option Z
}.

Record Axis : Type := mkAxis {
  axis_scale : scale;
  axis_lim : Q * Q;
  axis_ticks : option (list Q);
  axis_ticklabels : option (list string);
  axis_label : string;
  axis_major_formatter : formatter;
  axis_minor_locator : option LogLocator
}.

Record Layer : Type := mkLayer {
  layer_x : Series;
  layer_y : Series;
  layer_c : value;
  layer_s : value;
  layer_label : value
}.

Record Legend : Type := mkLegend {
  legend_title : string;
  legend_entries : list value
}.

Record Axes : Type := mkAxes {
  xaxis : Axis;
  yaxis : Axis;
  title : string;
  layers : list Layer;
  legend_of : option Legend;
  grid_on : bool
}.

(** The figure of [plot_hr_diagram]: the primary axes and its two twins. *)
Record Figure : Type := mkFigure {
  primary : Axes;
  spectral : Axes;
  luminosity : Axes
}.

Definition new_axis : Axis :=
  mkAxis Linear (0, 1)%Q None None "" DefaultFormatter None.

Definition new_axes : Axes := mkAxes new_axis new_axis "" [] None false.

Module axis.
Definition set_scale (s : scale) (a : Axis) : Axis :=
  mkAxis s (axis_lim a) (axis_ticks a) (axis_ticklabels a) (axis_label a)
    (axis_major_formatter a) (axis_minor_locator a).

Definition set_lim (l : Q * Q) (a : Axis) : Axis :=
  mkAxis (axis_scale a) l (axis_ticks a) (axis_ticklabels a) (axis_label a)
    (axis_major_formatter a) (axis_minor_locator a).

Definition invert (a : Axis) : Axis :=
  set_lim (snd (axis_lim a), fst (axis_lim a)) a.

(** [set_view_interval(vmin, vmax)]: the view grows until it holds both
    values and keeps its direction. *)
Definition grow (vmin vmax : Q) (lim : Q * Q) : Q * Q :=
  let '(oldmin, oldmax) := lim in
  if negb (Qle_bool oldmax oldmin)
  then (Qmin' (Qmin' vmin vmax) oldmin, Qmax' (Qmax' vmin vmax) oldmax)
  else (Qmax' (Qmax' vmin vmax) oldmin, Qmin' (Qmin' vmin vmax) oldmax).

(** [set_ticks(t)]: the ticks are recorded and the view is widened to show
    the smallest and the largest of them. *)
Definition set_ticks (t : list Q) (a : Axis) : Axis :=
  mkAxis (axis_scale a)
    (match extremum Qmin' t, extremum Qmax' t with
     | Some vmin, Some vmax => grow vmin vmax (axis_lim a)
     | _, _ => axis_lim a
     end)
    (Some t) (axis_ticklabels a) (axis_label a)
    (axis_major_formatter a) (axis_minor_locator a).

(** On a logarithmic axis a requested limit that is not positive is
    ignored and the current one kept. *)
Definition log_lim (old l : Q * Q) : Q * Q :=
  (if Qle_bool (fst l) 0 then fst old else fst l,
   if Qle_bool (snd l) 0 then snd old else snd l).

(** [set_xlim(l)] and [set_ylim(l)] on one axis. *)
Definition set_view (l : Q * Q) (a : Axis) : Axis :=
  match axis_scale a with
  | Log => set_lim (log_lim (axis_lim a) l) a
  | Linear => set_lim l a
  end.

Definition set_ticklabels (t : list string) (a : Axis) : Axis :=
  mkAxis (axis_scale a) (axis_lim a) (axis_ticks a) (Some t) (axis_label a)
    (axis_major_formatter a) (axis_minor_locator a).

Definition set_label (t : string) (a : Axis) : Axis :=
  mkAxis (axis_scale a) (axis_lim a) (axis_ticks a) (axis_ticklabels a) t
    (axis_major_formatter a) (axis_minor_locator a).

Definition set_major_formatter (f : formatter) (a : Axis) : Axis :=
  mkAxis (axis_scale a) (axis_lim a) (axis_ticks a) (axis_ticklabels a) (axis_label a)
    f (axis_minor_locator a).

Definition set_minor_locator (l : LogLocator) (a : Axis) : Axis :=
  mkAxis (axis_scale a) (axis_lim a) (axis_ticks a) (axis_ticklabels a) (axis_label a)
    (axis_major_formatter a) (Some l).

End axis.

Definition on_xaxis (f : Axis → Axis) (ax : Axes) : Axes :=
  mkAxes (f (xaxis ax)) (yaxis ax) (title ax) (layers ax) (legend_of ax) (grid_on ax).

Definition on_yaxis (f : Axis → Axis) (ax : Axes) : Axes :=
  mkAxes (xaxis ax) (f (yaxis ax)) (title ax) (layers ax) (legend_of ax) (grid_on ax).

Definition set_xscale (s : scale) : Axes → Axes := on_xaxis (axis.set_scale s).
Definition set_yscale (s : scale) : Axes → Axes := on_yaxis (axis.set_scale s).
Definition invert_xaxis : Axes → Axes := on_xaxis axis.invert.
Definition invert_yaxis : Axes → Axes := on_yaxis axis.invert.
Definition set_xticks (t : list Q) : Axes → Axes := on_xaxis (axis.set_ticks t).
Definition set_yticks (t : list Q) : Axes → Axes := on_yaxis (axis.set_ticks t).
Definition set_xticklabels (t : list string) : Axes → Axes := on_xaxis (axis.set_ticklabels t).
Definition set_yticklabels (t : list string) : Axes → Axes := on_yaxis (axis.set_ticklabels t).
Definition set_xlabel (t : string) : Axes → Axes := on_xaxis (axis.set_label t).
Definition set_ylabel (t : string) : Axes → Axes := on_yaxis (axis.set_label t).

(** [set_xlim] and [set_ylim] refuse a NaN limit (an infinite one cannot
    arise from exact numbers). *)
Definition checked_lim (a b : option Q) : exn + (Q * Q) :=
  match a, b with
  | Some x, Some y => inr (x, y)
  | _, _ => inl (ValueError "Axis limits cannot be NaN or Inf")
  end.

Definition set_xlim (a b : option Q) (ax : Axes) : exn + Axes :=
  l ← checked_lim a b; inr (on_xaxis (axis.set_view l) ax).

Definition set_ylim (a b : option Q) (ax : Axes) : exn + Axes :=
  l ← checked_lim a b; inr (on_yaxis (axis.set_view l) ax).

Definition set_title (t : string) (ax : Axes) : Axes :=
  mkAxes (xaxis ax) (yaxis ax) t (layers ax) (legend_of ax) (grid_on ax).

(** [ax.scatter(x, y, c=, s=, label=)] adds one layer. *)
Definition scatter (x y : Series) (c s label : value) (ax : Axes) : Axes :=
  mkAxes (xaxis ax) (yaxis ax) (title ax) (layers ax ++ [mkLayer x y c s label])
    (legend_of ax) (grid_on ax).

(** [ax.legend(title=)]: one entry per labelled layer drawn so far. *)
Definition legend (t : string) (ax : Axes) : Axes :=
  mkAxes (xaxis ax) (yaxis ax) (title ax) (layers ax)
    (Some (mkLegend t (layer_label <$> layers ax))) (grid_on ax).

Definition grid (b : bool) (ax : Axes) : Axes :=
  mkAxes (xaxis ax) (yaxis ax) (title ax) (layers ax) (legend_of ax) b.

(** [ax.twiny()]: a new axes with an x axis of its own over the y axis of
    [ax]; [ax.twinx()] the other way round.  The script never touches a
    shared axis after the twin is made, so the twin holds its value. *)
Definition twiny (ax : Axes) : Axes := mkAxes new_axis (yaxis ax) "" [] None false.
Definition twinx (ax : Axes) : Axes := mkAxes (xaxis ax) new_axis "" [] None false.

(** [range(a, b)] and [np.arange(a, b)] *)
Definition range (a b : Z) : list Z := seqZ a (b - a).

(** ** [LogLocator.tick_values]

    The positions a [LogLocator] yields for a view from [vmin] to [vmax],
    as the library computes them: the number of ticks it may use is
    [numticks], or, when none was given, the room on the axis clipped to
    2..9; from it and the number of decades in view comes the stride in
    decades between major ticks, and a locator with multiples yields
    ticks only when that stride is 1. *)

Definition clip (x lo hi : Z) : Z := Z.max lo (Z.min x hi).

(** [np.arange(start, stop, step)] for a positive integer step. *)
Definition arange_step (start stop step : Z) : list Z :=
  (λ i, start + i * step) <$> seqZ 0 ((stop - start + step - 1) / step).

(** [floor(log(q) / log(b))] and [ceil(log(q) / log(b))] for a positive
    [q] and a base of at least 2, found by search between bounds that the
    sizes of numerator and denominator give. *)
Definition log_bound (q : Q) : Z :=
  Z.log2 (Z.abs (Qnum q)) + Z.log2 (Zpos (Qden q)) + 2.

Definition floor_log (b q : Q) : Z :=
  let n := log_bound q in
  default (- n)
    (List.find (λ k, Qle_bool (Qpower b k) q) (reverse (seqZ (- n) (2 * n + 1)))).

Definition ceil_log (b q : Q) : Z :=
  let n := log_bound q in
  default n (List.find (λ k, Qle_bool q (Qpower b k)) (seqZ (- n) (2 * n + 1))).

(** What [tick_values] returns: positions, or the positions of the linear
    [AutoLocator] it falls back to, or positions that start from the
    smallest positive data value when the view does not start above 0
    (the last two are not computed here). *)
Inductive tick_positions : Type :=
  | Ticks (l : list Q)
  | AutoLocatorTicks
  | FromMinPos.

Definition tick_values (l : LogLocator) (tick_space : Z) (vmin vmax : Q)
  : tick_positions :=
  let numticks :=
    match loc_numticks l with
    | Some n => n
    | None => clip tick_space 2 9
    end in
  let b := loc_base l in
  if Qle_bool vmin 0 then FromMinPos else
  let '(vmin, vmax) :=
    if negb (Qle_bool vmin vmax) then (vmax, vmin) else (vmin, vmax) in
  let numdec := floor_log b vmax - ceil_log b vmin in
  let subs := loc_subs l in
  let stride := numdec / numticks + 1 in
  let stride := if numdec <=? stride then Z.max 1 (numdec - 1) else stride in
  let have_subs :=
    match subs with
    | [] => false
    | [s] => negb (Qeq_bool s 1)
    | _ => true
    end in
  let decades :=
    arange_step (floor_log b vmin - stride) (ceil_log b vmax + 2 * stride) stride in
  let ticklocs :=
    if have_subs then
      if stride =? 1 then decade ← decades; (λ s, s * Qpower b decade)%Q <$> subs
      else []
    else (λ decade, Qpower b decade) <$> decades in
  if (1 <? Z.of_nat (length subs)) && (stride =? 1)
     && (Z.of_nat (length (List.filter
                             (λ t, Qle_bool vmin t && Qle_bool t vmax) ticklocs)) <=? 1)
  then AutoLocatorTicks
  else Ticks ticklocs.

(** ** The world: files, heap, console and screen *)

(** Modelled from the spec: the tabular-data loader ([pd.read_csv]), which
    reads a path into rows or signals a load error.  A failure carries the
    text of the exception it raises. *)
Inductive read_outcome : Type :=
  | ReadFails (msg : string)
  | ReadOk (table : DataFrame).

Definition loc := positive.

Record world : Type := mkWorld {
  files : gmap string read_outcome;
  heap : gmap loc DataFrame;
  stdout : list string;
  shown : list Figure
}.

Definition set_heap (h : gmap loc DataFrame) (w : world) : world :=
  mkWorld (files w) h (stdout w) (shown w).

(** A computation that may raise an [E] and otherwise returns an [A]. *)
Definition M (E A : Type) : Type := world → world * (E + A).

#[global] Instance M_ret {E} : MRet (M E) := λ A a w, (w, inr a).
#[global] Instance M_bind {E} : MBind (M E) := λ A B f m w,
  match m w with
  | (w', inr a) => f a w'
  | (w', inl e) => (w', inl e)
  end.

Definition raise {E A} (e : E) : M E A := λ w, (w, inl e).

Definition lift {E A} (r : E + A) : M E A := λ w, (w, r).

(** [try: body / except Exception as e: handler e] *)
Definition try_except {E E' A} (body : M E A) (handler : E → M E' A) : M E' A :=
  λ w,
  match body w with
  | (w', inr a) => (w', inr a)
  | (w', inl e) => handler e w'
  end.

Definition print {E} (line : string) : M E unit :=
  λ w, (mkWorld (files w) (heap w) (stdout w ++ [line]) (shown w), inr ()).

(** [plt.show()] puts the figure on screen. *)
Definition show {E} (fig : Figure) : M E unit :=
  λ w, (mkWorld (files w) (heap w) (stdout w) (shown w ++ [fig]), inr ()).

(** A new object at an unused address. *)
Definition alloc {E} (d : DataFrame) : M E loc :=
  λ w, let l := fresh (dom (heap w)) in (set_heap (<[l := d]> (heap w)) w, inr l).

(** The table a reference points to (references are never dangling). *)
Definition deref {E} (df : loc) : M E DataFrame :=
  λ w, (w, inr (default ∅ (heap w !! df))).

(** [pd.read_csv(file_path)] *)
Definition read_csv (file_path : string) : M load_exn loc :=
  λ w,
  match files w !! file_path with
  | Some (ReadOk d) => alloc d w
  | Some (ReadFails msg) => (w, inl (ReaderError msg))
  | None =>
      (w, inl (ReaderError ("[Errno 2] No such file or directory: '" +:+ file_path +:+ "'")))
  end.

(** [df[col]] and [df[col] = s] through a reference: the assignment
    changes the object itself, for every holder of the reference. *)
Definition getitem (df : loc) (col : string) : M exn Series :=
  d ← deref df; lift (column d col).

Definition setitem (df : loc) (col : string) (s : Series) : M exn unit :=
  λ w, (set_heap (alter (<[col := s]>) df (heap w)) w, inr ()).

(** ** [load_data] *)

Definition required_columns : list string :=
  ["Temperature (K)"; "Luminosity(L/Lo)"; "Absolute magnitude(Mv)"; "Star type";
   "Spectral Class"].

Definition has_column (d : DataFrame) (col : string) : bool :=
  bool_decide (is_Some (d !! col)).

Definition load_data {E} (file_path : string) : M E (option loc) :=
  try_except
    (df ← read_csv file_path;
     d ← deref df;
     if negb (forallb (has_column d) required_columns)
     then raise (MissingColumns "Dataset must contain required columns: Temperature (K), Luminosity(L/Lo), Absolute magnitude(Mv), Star type, Spectral Class")
     else mret (Some df))
    (λ e, print ("Error loading data: " +:+ load_exn_str e);; mret None).

(** ** [map_star_types] *)

Definition map_star_types (df : loc) : M exn loc :=
  st ← getitem df "Star type";
  labels ← lift (series_map (λ x, t ← star_type_lookup x; inr (VStr t.1.1)) st);
  setitem df "Star type label" labels;;
  st ← getitem df "Star type";
  sizes ← lift (series_map (λ x, t ← star_type_lookup x; inr (VInt t.1.2)) st);
  setitem df "Marker size" sizes;;
  st ← getitem df "Star type";
  colors ← lift (series_map (λ x, t ← star_type_lookup x; inr (VStr t.2)) st);
  setitem df "Color" colors;;
  mret df.

(** ** [create_spectral_class_axis] *)

Definition create_spectral_class_axis (ax : Axes) (temp_range : option Q * option Q)
  : exn + Axes :=
  let spectral_classes := ["O"; "B"; "A"; "F"; "G"; "K"; "M"] in
  let temp_bounds := inject_Z <$> [40000; 30000; 10000; 7500; 6000; 3700; 2000] in
  let ax2 := twiny ax in
  let ax2 := set_xscale Log ax2 in
  ax2 ← set_xlim temp_range.1 temp_range.2 ax2;
  let ax2 := set_xticks temp_bounds ax2 in
  let ax2 := set_xticklabels spectral_classes ax2 in
  let ax2 := set_xlabel "Spectral Class" ax2 in
  let ax2 := invert_xaxis ax2 in
  inr ax2.

(** ** [create_luminosity_axis] *)

Definition create_luminosity_axis (ax : Axes) (mv_range : option Q * option Q)
  : exn + Axes :=
  let ax3 := twinx ax in
  let l_min := (1 # 1000000)%Q in
  let l_max := inject_Z 1000000 in
  let ax3 := set_yscale Log ax3 in
  ax3 ← set_ylim (Some l_min) (Some l_max) ax3;
  let l_ticks := (λ i, Qpower (inject_Z 10) i) <$> range (-6) 7 in
  let l_labels := (λ i, "$10^{" +:+ pretty i +:+ "}$") <$> range (-6) 7 in
  let ax3 := set_yticks l_ticks ax3 in
  let ax3 := set_yticklabels l_labels ax3 in
  let ax3 :=
    on_yaxis (axis.set_minor_locator
                (mkLogLocator (inject_Z 10) (inject_Z <$> range 1 10) None)) ax3 in
  let ax3 := set_ylabel "Luminosity (L/Lo)" ax3 in
  inr ax3.

(** ** [plot_hr_diagram] *)

(** One turn of the loop over the (label, colour) pairs. *)
Definition scatter_group (d : DataFrame) (ax : Axes) (group : value * value)
  : exn + Axes :=
  let '(s_type, color) := group in
  labels ← column d "Star type label";
  let subset := boolean_index d ((λ v, value_eqb v s_type) <$> labels) in
  if negb (df_empty subset) then
    x ← column subset "Temperature (K)";
    y ← column subset "Absolute magnitude(Mv)";
    sizes ← column subset "Marker size";
    s ← iloc0 sizes;
    inr (scatter x y color s s_type ax)
  else inr ax.

Fixpoint for_each {A S} (body : S → A → exn + S) (l : list A) (s : S) : exn + S :=
  match l with
  | [] => inr s
  | a :: l' => s' ← body s a; for_each body l' s'
  end.

(** The figure that [plot_hr_diagram] composes from the table, call by
    call in the order of the source. *)
Definition hr_figure (d : DataFrame) : exn + Figure :=
  let ax := new_axes in
  labels ← column d "Star type label";
  colors ← column d "Color";
  ax ← for_each (scatter_group d) (zip (unique labels) (unique colors)) ax;
  let ax := set_xscale Log ax in
  let ax := invert_xaxis ax in
  let ax := invert_yaxis ax in
  let ax := set_xlabel "Temperature (K)" ax in
  let ax := set_ylabel "Absolute Magnitude (Mv)" ax in
  let ax := set_title "Hertzsprung-Russell Diagram" ax in
  let ax := legend "Stellar Classification" ax in
  let ax := grid true ax in
  temps ← column d "Temperature (K)";
  t_lo ← series_min temps;
  t_hi ← series_max temps;
  let temp_min := scalar_mul t_lo (9 # 10) in
  let temp_max := scalar_mul t_hi (11 # 10) in
  ax ← set_xlim (to_float temp_max) (to_float temp_min) ax;
  mags ← column d "Absolute magnitude(Mv)";
  m_lo ← series_min mags;
  m_hi ← series_max mags;
  let mv_min := scalar_add m_lo (-1) in
  let mv_max := scalar_add m_hi 1 in
  ax ← set_ylim (to_float mv_max) (to_float mv_min) ax;
  let major_ticks := inject_Z <$> [40000; 30000; 20000; 10000; 7500; 6000; 5000; 3000] in
  let ax := set_xticks major_ticks ax in
  let ax := on_xaxis (axis.set_major_formatter ScalarFormatter) ax in
  let ax :=
    on_xaxis (axis.set_minor_locator
                (mkLogLocator (inject_Z 10) (inject_Z <$> range 2 10) (Some 10))) ax in
  ax2 ← create_spectral_class_axis ax (to_float temp_min, to_float temp_max);
  ax3 ← create_luminosity_axis ax (to_float mv_min, to_float mv_max);
  inr (mkFigure ax ax2 ax3).

Definition plot_hr_diagram (df : loc) : M exn unit :=
  d ← deref df;
  fig ← lift (hr_figure d);
  show fig.

(** ** [main] *)

(** The pipeline of [main], over the two stages that follow the loader. *)
Definition main_with (classify : loc → M exn loc) (render : loc → M exn unit)
  : M exn unit :=
  let file_path := "6 class csv.csv" in
  df ← load_data file_path;
  match df with
  | Some df => df ← classify df; render df
  | None => mret ()
  end.

Definition main : M exn unit := main_with map_star_types plot_hr_diagram.

(** ** Vocabulary of the properties *)

(** A cell is a recognised star-type code when it addresses one of the
    integers 0 to 5. *)
Definition valid_code (x : value) : Prop :=
  ∃ z, dict_key x = Some z ∧ 0 ≤ z ≤ 5.

#[global] Instance valid_code_dec x : Decision (valid_code x).
Proof.
  unfold valid_code. destruct (dict_key x) as [z|].
  - destruct (decide (0 ≤ z ≤ 5)) as [H|H].
    + left. eauto.
    + right. intros (z' & [= <-] & ?). done.
  - right. by intros (z' & [=] & ?).
Defined.

(** The dictionary entry of an integer key; only read at keys 0 to 5. *)
Definition descriptor (z : Z) : string * Z * string :=
  default ("", 0, "") (star_type_map !! z).

Definition code_of (x : value) : Z := default 0 (dict_key x).

(** The table [map_star_types] leaves behind when every code of the
    column [st] is recognised. *)
Definition enriched (d : DataFrame) (st : Series) : DataFrame :=
  <["Color" := (λ x, VStr (descriptor (code_of x)).2) <$> st]>
  (<["Marker size" := (λ x, VInt (descriptor (code_of x)).1.2) <$> st]>
  (<["Star type label" := (λ x, VStr (descriptor (code_of x)).1.1) <$> st]> d)).

(** The six triples as the specification lists them (§3 and §8); the
    theorems compare them with [star_type_map]. *)
Definition spec_descriptor_table : list (Z * (string * Z * string)) :=
  [(0, ("Red Dwarf", 30, "red")); (1, ("Brown Dwarf", 20, "maroon"));
   (2, ("White Dwarf", 25, "green")); (3, ("Main Sequence", 50, "blue"));
   (4, ("Giant", 80, "orange")); (5, ("Supergiant", 100, "purple"))].

(** The columns [map_star_types] assigns. *)
Definition derived_columns : list string :=
  ["Star type label"; "Marker size"; "Color"].

(** The padded magnitude limit [m + k], as the column's type computes it. *)
Definition padded (s : Series) (m : Q) (k : Z) : Q :=
  if int64_column s then inject_Z (wrap64 (Qnum m + k)) else (m + inject_Z k)%Q.

(** The rows of a column whose label is [l], in table order. *)
Definition rows_labelled (l : value) (labels col : Series) : Series :=
  omap (λ p, if value_eqb (fst p) l then Some (snd p) else None) (zip labels col).

(** The first occurrences of a list of integer codes, in the order
    [unique] keeps them. *)
Fixpoint dedup_from (seen ks : list Z) : list Z :=
  match ks with
  | [] => []
  | k :: ks' =>
      if existsb (Z.eqb k) seen then dedup_from seen ks'
      else k :: dedup_from (k :: seen) ks'
  end.

(** The three derived cells of a row with code [k]. *)
Definition label_cell (k : Z) : value := VStr (descriptor k).1.1.
Definition size_cell (k : Z) : value := VInt (descriptor k).1.2.
Definition color_cell (k : Z) : value := VStr (descriptor k).2.

(** The rows of a column whose code is [k]. *)
Definition rows_of (k : Z) (ks : list Z) (s : Series) : Series :=
  select ((λ k', k' =? k) <$> ks) s.

(** The layer the renderer draws for code [k]. *)
Definition layer_of (ks : list Z) (ts ms : Series) (k : Z) : Layer :=
  mkLayer (rows_of k ks ts) (rows_of k ks ms) (color_cell k) (size_cell k) (label_cell k).

(** A layer drawn as the dictionary says for one of the six codes. *)
Definition layer_matches_descriptor (L : Layer) : Prop :=
  ∃ code t, 0 ≤ code ≤ 5 ∧ star_type_map !! code = Some t
    ∧ layer_label L = VStr t.1.1 ∧ layer_s L = VInt t.1.2 ∧ layer_c L = VStr t.2.

(** The observed extrema of a list of numbers. *)
Definition is_min (m : Q) (qs : list Q) : Prop :=
  m ∈ qs ∧ Forall (λ q, (m <= q)%Q) qs.

Definition is_max (m : Q) (qs : list Q) : Prop :=
  m ∈ qs ∧ Forall (λ q, (q <= m)%Q) qs.

(** A table the renderer accepts: columns of one common length, the
    columns the renderer reads, numbers in the two plotted columns, and at
    least one row. *)
Record renderable (d : DataFrame) (temps mags : list Q) : Prop := mkRenderable {
  rd_rows : ∃ n, map_Forall (λ _ s, length s = n) d;
  rd_label : is_Some (d !! "Star type label");
  rd_color : is_Some (d !! "Color");
  rd_size : is_Some (d !! "Marker size");
  rd_temps : ∃ s, d !! "Temperature (K)" = Some s ∧ numbers s = inr temps;
  rd_mags : ∃ s, d !! "Absolute magnitude(Mv)" = Some s ∧ numbers s = inr mags;
  rd_nonempty : temps ≠ []
}.

(** ** Sample inputs *)

(** A table of recognised codes, one of them a float, and a table with
    the unknown code 6. *)
Definition classified_table : DataFrame :=
  {[ "Star type" := [VInt 3; VFloat (0 # 1); VInt 5] ]}.

Definition unclassifiable_table : DataFrame :=
  {[ "Star type" := [VInt 3; VInt 6; VInt 5] ]}.

Definition classified_world : world :=
  mkWorld ∅ {[ 1%positive := classified_table ]} [] [].

Definition unclassifiable_world : world :=
  mkWorld ∅ {[ 1%positive := unclassifiable_table ]} [] [].

(** The scenario of the specification: temperatures from 3000 to 40000 K,
    magnitudes from -10 to 15, one star of each of the six types. *)
Definition six_codes : Series := VInt <$> [0; 5; 1; 2; 3; 4].

Definition six_stars : DataFrame :=
  <["Temperature (K)" := VInt <$> [3000; 40000; 3500; 8500; 6100; 4200]]>
  (<["Luminosity(L/Lo)" :=
       VFloat <$> [1 # 1000; 200000 # 1; 5 # 10000; 3 # 1000; 12 # 10; 150 # 1]%Q]>
  (<["Absolute magnitude(Mv)" :=
       [VFloat (15 # 1); VInt (-10); VFloat (1402 # 100); VFloat (1205 # 100);
        VFloat (45 # 10); VFloat (-3 # 10)]]>
  (<["Star type" := six_codes]>
  (<["Spectral Class" := VStr <$> ["M"; "O"; "M"; "A"; "G"; "K"]]> ∅)))).

Definition six_temps : list Q := inject_Z <$> [3000; 40000; 3500; 8500; 6100; 4200].

Definition six_mags : list Q :=
  [15 # 1; inject_Z (-10); 1402 # 100; 1205 # 100; 45 # 10; -3 # 10]%Q.

Definition six_stars_world : world :=
  mkWorld ∅ {[ 1%positive := six_stars ]} [] [].

(** The same file without its spectral-class column. *)
Definition incomplete_world : world :=
  mkWorld {[ "6 class csv.csv" := ReadOk (delete "Spectral Class" six_stars) ]} ∅ [] [].

(** The file of [main] holding the scenario table, the same file with the
    unknown code 7 in its second row, a file the reader cannot parse, and
    a classified table without rows. *)
Definition six_stars_file : world :=
  mkWorld {[ "6 class csv.csv" := ReadOk six_stars ]} ∅ [] [].

Definition bad_code_table : DataFrame :=
  <["Star type" := VInt <$> [0; 7; 1; 2; 3; 4]]> six_stars.

Definition bad_code_file : world :=
  mkWorld {[ "6 class csv.csv" := ReadOk bad_code_table ]} ∅ [] [].

Definition unreadable_file : world :=
  mkWorld {[ "6 class csv.csv" := ReadFails "No columns to parse from file" ]} ∅ [] [].

Definition no_rows_table : DataFrame :=
  <["Temperature (K)" := []]> (<["Absolute magnitude(Mv)" := []]>
  (<["Star type" := []]> (<["Star type label" := []]>
  (<["Marker size" := []]> (<["Color" := []]> ∅))))).

(** The scenario table without its ['Star type'] column, on the heap. *)
Definition untyped_world : world :=
  mkWorld ∅ {[ 1%positive := delete "Star type" six_stars ]} [] [].

(** Five stars of two types, the types interleaved. *)
Definition five_stars : DataFrame :=
  <["Temperature (K)" := VInt <$> [5800; 6100; 3000; 7200; 2900]]>
  (<["Absolute magnitude(Mv)" :=
       VFloat <$> [48 # 10; 44 # 10; 1402 # 100; 39 # 10; 1510 # 100]%Q]>
  (<["Star type" := VInt <$> [3; 3; 0; 3; 0]]> ∅)).

Definition five_stars_world : world :=
  mkWorld ∅ {[ 1%positive := five_stars ]} [] [].

Definition five_codes : Series := VInt <$> [3; 3; 0; 3; 0].

Definition five_temps : list Q := inject_Z <$> [5800; 6100; 3000; 7200; 2900].




Example lookup3 : star_type_lookup (VInt 3) = inr ("Main Sequence", 50, "blue").
Proof. reflexivity. Qed.

Example lookup3f : star_type_lookup (VFloat (6 # 2)) = inr ("Main Sequence", 50, "blue").
Proof. reflexivity. Qed.

Example lookup7 : star_type_lookup (VInt 7) = inl (KeyError (VInt 7)).
Proof. reflexivity. Qed.

Example unique_ex : unique [VStr "a"; VStr "b"; VStr "a"; VStr "c"; VStr "b"]
  = [VStr "a"; VStr "b"; VStr "c"].
Proof. reflexivity. Qed.

Example smap_ex : series_map (λ x, t ← star_type_lookup x; inr (VStr t.1.1)) [VInt 0; VInt 7; VInt 9]
  = inl (KeyError (VInt 7)).
Proof. reflexivity. Qed.

Example min_ex : series_min [VInt 3; VFloat (1#2); VInt 7] = inr (Float64 (1#2)).
Proof. reflexivity. Qed.

(** * Properties *)

(** ** The monad *)

Section monad_steps.
Context {E A B : Type}.

Lemma bind_ok (m : M E A) (f : A → M E B) w w' a :
  m w = (w', inr a) → (m ≫= f) w = f a w'.
Proof. intros H. unfold mbind, M_bind. by rewrite H. Qed.

Lemma bind_raise (m : M E A) (f : A → M E B) w w' e :
  m w = (w', inl e) → (m ≫= f) w = (w', inl e).
Proof. intros H. unfold mbind, M_bind. by rewrite H. Qed.

End monad_steps.

Lemma getitem_ok df col d s w :
  heap w !! df = Some d → d !! col = Some s → getitem df col w = (w, inr s).
Proof.
  intros Hd Hs. unfold getitem.
  erewrite bind_ok; [|reflexivity].
  unfold lift, column. rewrite Hd. simpl. by rewrite Hs.
Qed.

(** ** The dictionary *)

Lemma star_type_map_dom z : is_Some (star_type_map !! z) ↔ 0 ≤ z ≤ 5.
Proof.
  split.
  - intros Hs.
    destruct (decide (0 ≤ z ≤ 5)) as [|Hout]; [done|].
    unfold star_type_map in Hs.
    rewrite !lookup_insert_ne, lookup_empty in Hs by lia.
    by destruct Hs.
  - intros Hz.
    assert (z = 0 ∨ z = 1 ∨ z = 2 ∨ z = 3 ∨ z = 4 ∨ z = 5) as Hc by lia.
    destruct Hc as [->|[->|[->|[->|[->| ->]]]]]; by eexists.
Qed.

Lemma star_type_lookup_valid x :
  valid_code x → star_type_lookup x = inr (descriptor (code_of x)).
Proof.
  intros (z & Hk & Hz). unfold star_type_lookup, descriptor, code_of.
  rewrite Hk. simpl.
  apply star_type_map_dom in Hz as [t Ht]. by rewrite Ht.
Qed.

Lemma star_type_lookup_invalid x :
  ¬ valid_code x → star_type_lookup x = inl (KeyError x).
Proof.
  intros Hx. unfold star_type_lookup.
  destruct (dict_key x) as [z|] eqn:Hk; [|done]. simpl.
  destruct (star_type_map !! z) as [t|] eqn:Ht; [|done].
  destruct Hx. exists z. split; [done|].
  apply star_type_map_dom. by eexists.
Qed.

(** ** [Series.map] *)

Lemma series_map_ok (f : value → exn + value) (g : value → value) s :
  Forall (λ x, f x = inr (g x)) s → series_map f s = inr (g <$> s).
Proof.
  induction 1 as [|x s Hx _ IH]; [done|].
  simpl. rewrite Hx. simpl. by rewrite IH.
Qed.

Lemma series_map_raise (f : value → exn + value) (P : value → Prop) s :
  (∀ x, P x → ∃ y, f x = inr y) →
  (∀ x, ¬ P x → f x = inl (KeyError x)) →
  (∀ x, Decision (P x)) →
  Exists (λ x, ¬ P x) s →
  ∃ pre k post, s = pre ++ k :: post ∧ Forall P pre ∧ ¬ P k
    ∧ series_map f s = inl (KeyError k).
Proof.
  intros Hok Hbad Hdec. induction s as [|x s IH]; intros Hex.
  - by apply Exists_nil in Hex.
  - destruct (decide (P x)) as [Hx|Hx].
    + apply Exists_cons in Hex as [?|Hex]; [done|].
      destruct (IH Hex) as (pre & k & post & -> & Hpre & Hk & Hmap).
      exists (x :: pre), k, post. repeat split; [by constructor|done|].
      simpl. destruct (Hok _ Hx) as [y ->]. simpl. by rewrite Hmap.
    + exists [], x, s. repeat split; [done|done|].
      simpl. by rewrite (Hbad _ Hx).
Qed.

(** ** [map_star_types] on the heap *)

Lemma map_star_types_ok df d st w :
  heap w !! df = Some d →
  d !! "Star type" = Some st →
  Forall valid_code st →
  map_star_types df w = (set_heap (<[df := enriched d st]> (heap w)) w, inr df).
Proof.
  intros Hd Hst Hvalid. unfold map_star_types.
  assert (∀ (p : string * Z * string → value),
    series_map (λ x, t ← star_type_lookup x; inr (p t)) st
    = inr ((λ x, p (descriptor (code_of x))) <$> st)) as Hmap.
  { intros p. apply series_map_ok. eapply Forall_impl; [exact Hvalid|].
    intros x Hx. simpl. by rewrite (star_type_lookup_valid _ Hx). }
  erewrite bind_ok; [|by eapply getitem_ok].
  erewrite bind_ok; [|unfold lift; by rewrite (Hmap (λ t, VStr t.1.1))].
  erewrite bind_ok; [|reflexivity].
  set (w1 := set_heap _ w).
  assert (heap w1 !! df = Some (<["Star type label" :=
    (λ x, VStr (descriptor (code_of x)).1.1) <$> st]> d)) as Hd1.
  { subst w1. simpl. by rewrite lookup_alter_eq, Hd. }
  erewrite bind_ok; [|eapply getitem_ok; [exact Hd1|by rewrite lookup_insert_ne]].
  erewrite bind_ok; [|unfold lift; by rewrite (Hmap (λ t, VInt t.1.2))].
  erewrite bind_ok; [|reflexivity].
  set (w2 := set_heap _ w1).
  assert (heap w2 !! df = Some (<["Marker size" :=
    (λ x, VInt (descriptor (code_of x)).1.2) <$> st]>
    (<["Star type label" := (λ x, VStr (descriptor (code_of x)).1.1) <$> st]> d))) as Hd2.
  { subst w2. unfold set_heap at 1. cbn [heap]. by rewrite lookup_alter_eq, Hd1. }
  erewrite bind_ok; [|eapply getitem_ok; [exact Hd2|by rewrite !lookup_insert_ne]].
  erewrite bind_ok; [|unfold lift; by rewrite (Hmap (λ t, VStr t.2))].
  erewrite bind_ok; [|reflexivity].
  unfold mret, M_ret. f_equal.
  unfold set_heap. simpl. f_equal.
  apply map_eq. intros l. destruct (decide (df = l)) as [->|Hne].
  - rewrite !lookup_alter_eq, lookup_insert_eq, Hd. done.
  - by rewrite !lookup_alter_ne, lookup_insert_ne.
Qed.

Lemma label_mapping_raises st :
  Exists (λ x, ¬ valid_code x) st →
  ∃ pre k post, st = pre ++ k :: post ∧ Forall valid_code pre ∧ ¬ valid_code k
    ∧ series_map (λ x, t ← star_type_lookup x; inr (VStr t.1.1)) st
      = inl (KeyError k).
Proof.
  intros Hbad. apply series_map_raise; [| |apply _|done].
  - intros x Hx. rewrite (star_type_lookup_valid _ Hx). by eexists.
  - intros x Hx. by rewrite (star_type_lookup_invalid _ Hx).
Qed.

Lemma map_star_types_raises df d st w :
  heap w !! df = Some d →
  d !! "Star type" = Some st →
  Exists (λ x, ¬ valid_code x) st →
  ∃ k, k ∈ st ∧ ¬ valid_code k ∧ map_star_types df w = (w, inl (KeyError k)).
Proof.
  intros Hd Hst Hbad.
  destruct (label_mapping_raises st Hbad) as (pre & k & post & -> & _ & Hk & Hmap).
  exists k. split; [set_solver|]. split; [done|].
  unfold map_star_types.
  erewrite bind_ok; [|by eapply getitem_ok].
  erewrite bind_raise; [done|]. unfold lift. by rewrite Hmap.
Qed.

Lemma getitem_missing df col w :
  heap w !! df ≫= (.!! col) = None →
  getitem df col w = (w, inl (KeyError (VStr col))).
Proof.
  intros Hnone. unfold getitem.
  erewrite bind_ok; [|reflexivity].
  unfold lift, column.
  destruct (heap w !! df) as [d|]; simpl in *; [by rewrite Hnone|done].
Qed.

(** Every run of [map_star_types] either raises and leaves the world as it
    was, or rewrites the table behind [df] and returns [df]. *)
Lemma map_star_types_cases df w :
  (∃ e, map_star_types df w = (w, inl e))
  ∨ (∃ d st, heap w !! df = Some d ∧ d !! "Star type" = Some st
       ∧ Forall valid_code st
       ∧ map_star_types df w = (set_heap (<[df := enriched d st]> (heap w)) w, inr df)).
Proof.
  destruct (heap w !! df ≫= (.!! "Star type")) as [st|] eqn:Hcol.
  - destruct (heap w !! df) as [d|] eqn:Hd; [|done]. simpl in Hcol.
    destruct (decide (Forall valid_code st)) as [Hv|Hv].
    + right. exists d, st. eauto using map_star_types_ok.
    + left. apply not_Forall_Exists in Hv; [|apply _].
      destruct (map_star_types_raises df d st w) as (k & _ & _ & Hr); eauto.
  - left. eexists. unfold map_star_types.
    erewrite bind_raise; [done|]. by apply getitem_missing.
Qed.

Lemma spec_descriptor_table_lookup code t :
  (code, t) ∈ spec_descriptor_table → star_type_map !! code = Some t.
Proof.
  unfold spec_descriptor_table. rewrite !elem_of_cons, elem_of_nil.
  intros [H|[H|[H|[H|[H|[H|[]]]]]]]; by inversion H.
Qed.

(** ** C1 *)

(** C1. Every code 0..5 is looked up to the triple the specification
    lists for it; on a table whose codes are all recognised the classifier
    returns the table with these triples in the three derived columns, row
    by row; on a table holding any other code it raises a [KeyError] and
    assigns nothing (no default triple). *)
Theorem map_star_types_fixed_triples (w : world) (df : loc) (d : DataFrame) (st : Series) :
  heap w !! df = Some d →
  d !! "Star type" = Some st →
  (∀ code, 0 ≤ code ≤ 5 →
     ∃ t, (code, t) ∈ spec_descriptor_table ∧ star_type_lookup (VInt code) = inr t)
  ∧ (Forall valid_code st →
     ∃ labels sizes colors,
       map_star_types df w
       = (set_heap (<[df := <["Color" := colors]> (<["Marker size" := sizes]>
                             (<["Star type label" := labels]> d))]> (heap w)) w, inr df)
       ∧ ∀ i x code t,
           st !! i = Some x → dict_key x = Some code →
           (code, t) ∈ spec_descriptor_table →
           labels !! i = Some (VStr t.1.1)
           ∧ sizes !! i = Some (VInt t.1.2)
           ∧ colors !! i = Some (VStr t.2))
  ∧ (Exists (λ x, ¬ valid_code x) st →
     ∃ k, k ∈ st ∧ ¬ valid_code k ∧ map_star_types df w = (w, inl (KeyError k))).
Proof.
  intros Hd Hst. split; [|split].
  - intros code Hc.
    assert (code = 0 ∨ code = 1 ∨ code = 2 ∨ code = 3 ∨ code = 4 ∨ code = 5)
      as Hcases by lia.
    destruct Hcases as [->|[->|[->|[->|[->| ->]]]]];
      eexists; (split; [|reflexivity]); unfold spec_descriptor_table;
      rewrite !elem_of_cons; tauto.
  - intros Hvalid. do 3 eexists. split.
    + rewrite (map_star_types_ok _ _ _ _ Hd Hst Hvalid). reflexivity.
    + intros i x code t Hi Hk Ht.
      apply spec_descriptor_table_lookup in Ht.
      rewrite !list_lookup_fmap, Hi. simpl.
      unfold descriptor, code_of. rewrite Hk. simpl. by rewrite Ht.
  - intros Hbad. by eapply map_star_types_raises.
Qed.

Lemma map_star_types_fixed_triples_witness :
  (∃ labels sizes colors,
     labels !! 1%nat = Some (VStr "Red Dwarf")
     ∧ sizes !! 1%nat = Some (VInt 30)
     ∧ colors !! 1%nat = Some (VStr "red")
     ∧ (map_star_types 1%positive classified_world).2 = inr 1%positive
     ∧ heap (map_star_types 1%positive classified_world).1 !! 1%positive
       = Some (<["Color" := colors]> (<["Marker size" := sizes]>
              (<["Star type label" := labels]> classified_table))))
  ∧ (∃ k, map_star_types 1%positive unclassifiable_world
          = (unclassifiable_world, inl (KeyError k))).
Proof.
  split.
  - destruct (map_star_types_fixed_triples classified_world 1%positive
      classified_table [VInt 3; VFloat (0 # 1); VInt 5])
      as (_ & Hok & _); [by vm_compute|by vm_compute|].
    destruct Hok as (labels & sizes & colors & Hrun & Hrows).
    { apply (bool_decide_unpack _). by vm_compute. }
    destruct (Hrows 1%nat (VFloat (0 # 1)) 0 ("Red Dwarf", 30, "red"))
      as (Hl & Hs & Hc); [reflexivity|reflexivity|by left|].
    exists labels, sizes, colors. rewrite Hrun. simpl.
    rewrite lookup_insert_eq. done.
  - destruct (map_star_types_fixed_triples unclassifiable_world 1%positive
      unclassifiable_table [VInt 3; VInt 6; VInt 5])
      as (_ & _ & Hbad); [by vm_compute|by vm_compute|].
    destruct Hbad as (k & _ & _ & Hrun).
    { apply (bool_decide_unpack _). by vm_compute. }
    by exists k.
Defined.

(** ** C10 *)

(** C10. On a table holding a code outside 0..5 the very first mapping,
    the one for ['Star type label'], raises [KeyError] at the first such
    code; [map_star_types] raises that exception with the world exactly as
    it found it, so the caller's table has none of the three derived
    columns assigned. *)
Theorem map_star_types_failure_atomic (w : world) (df : loc) (d : DataFrame) (st : Series) :
  heap w !! df = Some d →
  d !! "Star type" = Some st →
  Exists (λ x, ¬ valid_code x) st →
  ∃ pre k post,
    st = pre ++ k :: post ∧ Forall valid_code pre ∧ ¬ valid_code k
    ∧ series_map (λ x, t ← star_type_lookup x; inr (VStr t.1.1)) st = inl (KeyError k)
    ∧ map_star_types df w = (w, inl (KeyError k))
    ∧ heap (map_star_types df w).1 !! df = Some d.
Proof.
  intros Hd Hst Hbad.
  destruct (label_mapping_raises st Hbad) as (pre & k & post & Heq & Hpre & Hk & Hmap).
  exists pre, k, post. repeat split; try done.
  - unfold map_star_types.
    erewrite bind_ok; [|by eapply getitem_ok].
    erewrite bind_raise; [done|]. unfold lift. by rewrite Hmap.
  - unfold map_star_types.
    erewrite bind_ok; [|by eapply getitem_ok].
    erewrite bind_raise; [done|]. unfold lift. by rewrite Hmap.
Qed.

Lemma map_star_types_failure_atomic_witness :
  ∃ pre k post,
    [VInt 3; VInt 6; VInt 5] = pre ++ k :: post ∧ Forall valid_code pre ∧ ¬ valid_code k
    ∧ series_map (λ x, t ← star_type_lookup x; inr (VStr t.1.1)) [VInt 3; VInt 6; VInt 5]
      = inl (KeyError k)
    ∧ map_star_types 1%positive unclassifiable_world
      = (unclassifiable_world, inl (KeyError k))
    ∧ heap (map_star_types 1%positive unclassifiable_world).1 !! 1%positive
      = Some unclassifiable_table.
Proof.
  apply (map_star_types_failure_atomic unclassifiable_world 1%positive
           unclassifiable_table [VInt 3; VInt 6; VInt 5]);
    [by vm_compute|by vm_compute|].
  apply (bool_decide_unpack _). by vm_compute.
Defined.

(** ** C7 *)

(** C7, as stated, fails: the classifier assigns into the caller's table.
    The caller holds reference 1 to a table without a ['Color'] column;
    after the call the object behind that same reference has the column,
    whether or not the caller uses the returned value. *)
Lemma map_star_types_changes_caller_table :
  heap classified_world !! 1%positive ≫= (.!! "Color") = None
  ∧ heap (map_star_types 1%positive classified_world).1 !! 1%positive ≫= (.!! "Color")
    = Some [VStr "blue"; VStr "red"; VStr "purple"]
  ∧ heap (map_star_types 1%positive classified_world).1 !! 1%positive
    ≠ heap classified_world !! 1%positive.
Proof.
  split; [by vm_compute|]. split; [by vm_compute|].
  intros Hsame. apply (f_equal (λ o, o ≫= (.!! "Color"))) in Hsame.
  vm_compute in Hsame. discriminate Hsame.
Qed.

(** C7, amended. The classifier does no I/O (files, console and screen are
    as before) and touches no object other than the table it is given.
    When it returns, it returns the reference it was given and has
    assigned, in place on that table, the three derived columns, one cell
    per row holding the label, size and colour the dictionary gives the
    row's code, and no other column has changed; when it raises, nothing
    has changed at all. *)
Theorem map_star_types_in_place (w : world) (df : loc) :
  let w' := (map_star_types df w).1 in
  files w' = files w ∧ stdout w' = stdout w ∧ shown w' = shown w
  ∧ (∀ l, l ≠ df → heap w' !! l = heap w !! l)
  ∧ (∀ col, col ∉ derived_columns →
       heap w' !! df ≫= (.!! col) = heap w !! df ≫= (.!! col))
  ∧ match (map_star_types df w).2 with
    | inr r =>
        r = df
        ∧ ∃ d st labels sizes colors,
            heap w !! df = Some d
            ∧ d !! "Star type" = Some st
            ∧ heap w' !! df
              = Some (<["Color" := colors]> (<["Marker size" := sizes]>
                     (<["Star type label" := labels]> d)))
            ∧ length labels = length st
            ∧ length sizes = length st
            ∧ length colors = length st
            ∧ ∀ i x, st !! i = Some x →
                ∃ t, star_type_lookup x = inr t
                  ∧ labels !! i = Some (VStr t.1.1)
                  ∧ sizes !! i = Some (VInt t.1.2)
                  ∧ colors !! i = Some (VStr t.2)
    | inl _ => w' = w
    end.
Proof.
  destruct (map_star_types_cases df w)
    as [[e Hrun]|(d & st & Hd & Hst & Hvalid & Hrun)]; rewrite Hrun; simpl.
  - repeat split; done.
  - split; [done|]. split; [done|]. split; [done|]. split; [|split; [|split]].
    + intros l Hl. by rewrite lookup_insert_ne.
    + intros col Hcol. rewrite lookup_insert_eq, Hd. simpl.
      unfold enriched, derived_columns in *.
      rewrite !lookup_insert_ne; [done|set_solver..].
    + done.
    + exists d, st. do 3 eexists. split; [done|]. split; [done|].
      split; [by rewrite lookup_insert_eq|].
      rewrite !length_fmap. do 3 (split; [done|]).
      intros i x Hi. rewrite Forall_forall in Hvalid.
      pose proof (Hvalid x (list_elem_of_lookup_2 _ _ _ Hi)) as Hx.
      exists (descriptor (code_of x)). split; [by apply star_type_lookup_valid|].
      rewrite !list_lookup_fmap, Hi. done.
Qed.

(** ** C5 *)

Lemma forallb_has_column_missing (d : DataFrame) col cols :
  col ∈ cols → d !! col = None → forallb (has_column d) cols = false.
Proof.
  intros Hin Hnone. induction Hin as [col cols|col c cols _ IH]; simpl.
  - unfold has_column at 1. rewrite Hnone.
    rewrite bool_decide_eq_false_2; [done|]. by intros [? [=]].
  - rewrite IH by done. by rewrite andb_false_r.
Qed.

Lemma load_data_rejects {E} path d col w :
  files w !! path = Some (ReadOk d) →
  col ∈ required_columns →
  d !! col = None →
  load_data (E := E) path w
  = (mkWorld (files w) (<[fresh (dom (heap w)) := d]> (heap w))
       (stdout w ++ ["Error loading data: Dataset must contain required columns: Temperature (K), Luminosity(L/Lo), Absolute magnitude(Mv), Star type, Spectral Class"])
       (shown w), inr None).
Proof.
  intros Hfile Hin Hnone. unfold load_data, try_except.
  erewrite bind_ok; [|unfold read_csv; rewrite Hfile; reflexivity].
  erewrite bind_ok; [|reflexivity].
  cbn [heap set_heap]. rewrite lookup_insert_eq. cbn [default].
  rewrite (forallb_has_column_missing d col) by done.
  reflexivity.
Qed.

(** A failure of the reader itself is reported the same way. *)
Lemma load_data_reader_failure {E} path msg w :
  files w !! path = Some (ReadFails msg) →
  load_data (E := E) path w
  = (mkWorld (files w) (heap w) (stdout w ++ ["Error loading data: " +:+ msg]) (shown w),
     inr None).
Proof.
  intros Hfile. unfold load_data, try_except.
  erewrite bind_raise; [|unfold read_csv; rewrite Hfile; reflexivity].
  reflexivity.
Qed.

(** C5. When the table read from the file lacks one of the five required
    columns, [load_data] prints the message that names the required
    columns and returns [None] (it raises nothing); [main] then ends
    normally in that same world, whatever the classifier and the renderer
    would have done: neither is called, nothing is shown, and no object
    that existed before is changed. *)
Theorem load_data_missing_column (w : world) (path : string) (d : DataFrame) (col : string) :
  files w !! path = Some (ReadOk d) →
  col ∈ required_columns →
  d !! col = None →
  ∃ w',
    load_data (E := exn) path w = (w', inr None)
    ∧ stdout w' = stdout w ++ ["Error loading data: Dataset must contain required columns: Temperature (K), Luminosity(L/Lo), Absolute magnitude(Mv), Star type, Spectral Class"]
    ∧ shown w' = shown w
    ∧ files w' = files w
    ∧ (∀ l t, heap w !! l = Some t → heap w' !! l = Some t)
    ∧ (path = "6 class csv.csv" →
       ∀ classify render, main_with classify render w = (w', inr ())).
Proof.
  intros Hfile Hin Hnone. eexists. split; [by eapply load_data_rejects|].
  cbn [stdout shown files heap]. repeat split.
  - intros l t Hl. rewrite lookup_insert_ne; [done|].
    intros <-. pose proof (is_fresh (dom (heap w))) as Hfresh.
    apply Hfresh, elem_of_dom. by eexists.
  - intros -> classify render. unfold main_with.
    erewrite bind_ok; [|by eapply load_data_rejects]. reflexivity.
Qed.

(** ** Extrema *)

Lemma Qmin'_cases a b : (Qmin' a b = a ∧ (a <= b)%Q) ∨ (Qmin' a b = b ∧ (b <= a)%Q).
Proof.
  unfold Qmin'. destruct (Qle_bool a b) eqn:Hle.
  - left. split; [done|]. by apply Qle_bool_iff.
  - right. split; [done|]. apply Qlt_le_weak, Qnot_le_lt.
    intros Hab. apply Qle_bool_iff in Hab. congruence.
Qed.

Lemma Qmax'_cases a b : (Qmax' a b = b ∧ (a <= b)%Q) ∨ (Qmax' a b = a ∧ (b <= a)%Q).
Proof.
  unfold Qmax'. destruct (Qle_bool a b) eqn:Hle.
  - left. split; [done|]. by apply Qle_bool_iff.
  - right. split; [done|]. apply Qlt_le_weak, Qnot_le_lt.
    intros Hab. apply Qle_bool_iff in Hab. congruence.
Qed.

Lemma foldl_Qmin' q qs : is_min (foldl Qmin' q qs) (q :: qs).
Proof.
  revert q. induction qs as [|x qs IH]; intros q; simpl.
  - split; [by left|]. repeat constructor. apply Qle_refl.
  - destruct (IH (Qmin' q x)) as [Hin Hle].
    apply Forall_cons in Hle as [Hhd Htl].
    destruct (Qmin'_cases q x) as [[Heq Hqx]|[Heq Hqx]]; rewrite Heq in *.
    + split.
      * apply elem_of_cons in Hin as [->|Hin]; [by left|by do 2 right].
      * constructor; [done|]. constructor; [|done]. by eapply Qle_trans.
    + split.
      * apply elem_of_cons in Hin as [->|Hin]; [right; by left|by do 2 right].
      * constructor; [by eapply Qle_trans|]. by constructor.
Qed.

Lemma foldl_Qmax' q qs : is_max (foldl Qmax' q qs) (q :: qs).
Proof.
  revert q. induction qs as [|x qs IH]; intros q; simpl.
  - split; [by left|]. repeat constructor. apply Qle_refl.
  - destruct (IH (Qmax' q x)) as [Hin Hle].
    apply Forall_cons in Hle as [Hhd Htl].
    destruct (Qmax'_cases q x) as [[Heq Hqx]|[Heq Hqx]]; rewrite Heq in *.
    + split.
      * apply elem_of_cons in Hin as [->|Hin]; [right; by left|by do 2 right].
      * constructor; [by eapply Qle_trans|]. by constructor.
    + split.
      * apply elem_of_cons in Hin as [->|Hin]; [by left|by do 2 right].
      * constructor; [done|]. constructor; [|done]. by eapply Qle_trans.
Qed.

Lemma extremum_min qs : qs ≠ [] → ∃ m, extremum Qmin' qs = Some m ∧ is_min m qs.
Proof. destruct qs as [|q qs]; [done|]. intros _. eexists. split; [done|]. apply foldl_Qmin'. Qed.

Lemma extremum_max qs : qs ≠ [] → ∃ m, extremum Qmax' qs = Some m ∧ is_max m qs.
Proof. destruct qs as [|q qs]; [done|]. intros _. eexists. split; [done|]. apply foldl_Qmax'. Qed.



Lemma is_min_le_max a b qs : is_min a qs → is_max b qs → (a <= b)%Q.
Proof. intros [Ha Hla] [Hb Hlb]. rewrite Forall_forall in Hla. auto. Qed.

Lemma numbers_length s qs : numbers s = inr qs → length qs = length s.
Proof.
  revert qs. induction s as [|x s IH]; intros qs; simpl.
  - by intros [= <-].
  - destruct (as_number x); [|done].
    destruct (numbers s) as [|qs']; [done|]. simpl.
    intros [= <-]. simpl. f_equal. by apply IH.
Qed.

(** ** The scatter loop *)

Lemma select_length_eq mask (s s' : Series) :
  length s = length s' → length (select mask s) = length (select mask s').
Proof.
  revert s s'. induction mask as [|b mask IH]; intros [|x s] [|x' s'] Hlen;
    try done; simpl in *.
  destruct b; simpl; auto.
Qed.

Lemma boolean_index_nonempty (d : DataFrame) n mask col s :
  map_Forall (λ _ s, length s = n) d →
  df_empty (boolean_index d mask) = false →
  d !! col = Some s →
  select mask s ≠ [].
Proof.
  intros Hwf Hne Hcol. unfold df_empty, boolean_index in Hne.
  apply bool_decide_eq_false in Hne.
  apply map_not_Forall in Hne as (c & x & Hc & Hx); [|apply _].
  rewrite lookup_fmap in Hc.
  destruct (d !! c) as [sc|] eqn:Hsc; [|done]. injection Hc as <-.
  intros Hnil. apply Hx.
  apply length_zero_iff_nil.
  rewrite (select_length_eq mask sc s); [by rewrite Hnil|].
  by rewrite (Hwf _ _ Hsc), (Hwf _ _ Hcol).
Qed.

Lemma scatter_group_returns (d : DataFrame) n ax group :
  map_Forall (λ _ s, length s = n) d →
  is_Some (d !! "Star type label") →
  is_Some (d !! "Marker size") →
  is_Some (d !! "Temperature (K)") →
  is_Some (d !! "Absolute magnitude(Mv)") →
  ∃ ax', scatter_group d ax group = inr ax'.
Proof.
  intros Hwf [labels Hl] [sizes Hs] [ts Ht] [ms Hm].
  destruct group as [s_type color]. unfold scatter_group, column.
  rewrite Hl. simpl.
  destruct (df_empty _) eqn:Hempty; simpl; [by eexists|].
  unfold boolean_index. rewrite !lookup_fmap, Ht, Hm, Hs. simpl.
  pose proof (boolean_index_nonempty d n _ _ _ Hwf Hempty Hs) as Hsel.
  destruct (select _ sizes); [done|]. simpl. by eexists.
Qed.

Lemma for_each_returns {A S} (body : S → A → exn + S) l s :
  (∀ s a, ∃ s', body s a = inr s') → ∃ s', for_each body l s = inr s'.
Proof.
  intros Hbody. revert s. induction l as [|a l IH]; intros s; simpl.
  - by eexists.
  - destruct (Hbody s a) as [s' ->]. simpl. apply IH.
Qed.

(** ** The composed figure *)

Lemma extremum_elem pick (Hpick : ∀ a b, pick a b = a ∨ pick a b = b) qs m :
  extremum pick qs = Some m → m ∈ qs.
Proof.
  destruct qs as [|q qs]; [done|]. simpl. intros [= <-].
  revert q. induction qs as [|x qs IH]; intros q; simpl; [by left|].
  destruct (Hpick q x) as [-> | ->].
  - pose proof (IH q) as Hq. apply elem_of_cons in Hq as [->|?];
      [by left|by do 2 right].
  - right. apply IH.
Qed.

Lemma Qmin'_pick a b : Qmin' a b = a ∨ Qmin' a b = b.
Proof. unfold Qmin'. destruct (Qle_bool a b); auto. Qed.

Lemma Qmax'_pick a b : Qmax' a b = a ∨ Qmax' a b = b.
Proof. unfold Qmax'. destruct (Qle_bool a b); auto. Qed.

(** The numbers of an all-integer column are integers. *)
Lemma numbers_int64 s qs :
  numbers s = inr qs → int64_column s = true → Forall (λ q, inject_Z (Qnum q) = q) qs.
Proof.
  revert qs. induction s as [|x s IH]; intros qs; simpl.
  - intros [= <-] _. constructor.
  - destruct x as [z|q|str]; simpl; try done.
    destruct (numbers s) as [|qs']; [done|]. simpl.
    intros [= <-] Hint. constructor; [done|]. by apply IH.
Qed.

Lemma to_float_mul s qs m f :
  numbers s = inr qs → m ∈ qs →
  to_float (scalar_mul (scalar_of s (Some m)) f) = Some (m * f)%Q.
Proof.
  intros Hqs Hm. unfold scalar_of.
  destruct (int64_column s) eqn:Hint; [|done]. simpl.
  pose proof (numbers_int64 s qs Hqs Hint) as Hall.
  rewrite Forall_forall in Hall. by rewrite (Hall m Hm).
Qed.

Lemma to_float_add s m k :
  to_float (scalar_add (scalar_of s (Some m)) k) = Some (padded s m k).
Proof. unfold scalar_of, padded. by destruct (int64_column s). Qed.

(** Drawing layers leaves both axes of the primary plot as they are. *)
Lemma scatter_group_axes d ax group ax' :
  scatter_group d ax group = inr ax' → xaxis ax' = xaxis ax ∧ yaxis ax' = yaxis ax.
Proof.
  destruct group as [s_type color]. unfold scatter_group.
  destruct (column d "Star type label") as [|labels]; [done|]. cbn [mbind sum_bind].
  destruct (negb _); [|by intros [= <-]].
  destruct (column _ "Temperature (K)") as [|x]; [done|]. cbn [mbind sum_bind].
  destruct (column _ "Absolute magnitude(Mv)") as [|y]; [done|]. cbn [mbind sum_bind].
  destruct (column _ "Marker size") as [|sizes]; [done|]. cbn [mbind sum_bind].
  destruct (iloc0 sizes) as [|sz]; [done|]. cbn [mbind sum_bind].
  by intros [= <-].
Qed.

Lemma scatter_loop_axes d groups ax ax' :
  for_each (scatter_group d) groups ax = inr ax' →
  xaxis ax' = xaxis ax ∧ yaxis ax' = yaxis ax.
Proof.
  revert ax. induction groups as [|g groups IH]; intros ax; simpl.
  - by intros [= <-].
  - destruct (scatter_group d ax g) as [|ax1] eqn:Hg; [done|]. simpl.
    intros Hrest. apply IH in Hrest as [-> ->]. by apply scatter_group_axes in Hg.
Qed.

Lemma hr_figure_ok (d : DataFrame) labels colors ax0 ts temps tlo thi ms mags mlo mhi :
  d !! "Star type label" = Some labels →
  d !! "Color" = Some colors →
  for_each (scatter_group d) (zip (unique labels) (unique colors)) new_axes = inr ax0 →
  d !! "Temperature (K)" = Some ts →
  numbers ts = inr temps →
  extremum Qmin' temps = Some tlo →
  extremum Qmax' temps = Some thi →
  d !! "Absolute magnitude(Mv)" = Some ms →
  numbers ms = inr mags →
  extremum Qmin' mags = Some mlo →
  extremum Qmax' mags = Some mhi →
  ∃ fig,
    hr_figure d = inr fig
    ∧ layers (primary fig) = layers ax0
    ∧ legend_of (primary fig)
      = Some (mkLegend "Stellar Classification" (layer_label <$> layers ax0))
    ∧ axis_scale (xaxis (primary fig)) = Log
    ∧ axis_lim (xaxis (primary fig))
      = axis.grow (inject_Z 3000) (inject_Z 40000)
          (axis.log_lim (1, 0)%Q (thi * (11 # 10), tlo * (9 # 10))%Q)
    ∧ axis_scale (yaxis (primary fig)) = Linear
    ∧ axis_lim (yaxis (primary fig)) = (padded ms mhi 1, padded ms mlo (-1))
    ∧ axis_scale (xaxis (spectral fig)) = Log
    ∧ axis_lim (xaxis (spectral fig))
      = (let l := axis.grow (inject_Z 2000) (inject_Z 40000)
                    (axis.log_lim (0, 1)%Q (tlo * (9 # 10), thi * (11 # 10))%Q) in
         (snd l, fst l)).
Proof.
  intros Hl Hc Hloop Ht Hts Htlo Hthi Hm Hms Hmlo Hmhi.
  pose proof (extremum_elem _ Qmin'_pick _ _ Htlo) as Hin_lo.
  pose proof (extremum_elem _ Qmax'_pick _ _ Hthi) as Hin_hi.
  unfold hr_figure, column, series_min, series_max.
  rewrite Hl, Hc. cbn [mbind sum_bind]. rewrite Hloop. cbn [mbind sum_bind].
  rewrite Ht. cbn [mbind sum_bind]. rewrite Hts. cbn [mbind sum_bind].
  rewrite Htlo, Hthi.
  rewrite (to_float_mul ts temps tlo _ Hts Hin_lo), (to_float_mul ts temps thi _ Hts Hin_hi).
  cbn [set_xlim checked_lim mbind sum_bind].
  rewrite Hm. cbn [mbind sum_bind]. rewrite Hms. cbn [mbind sum_bind].
  rewrite Hmlo, Hmhi. rewrite !to_float_add.
  cbn [set_ylim checked_lim mbind sum_bind].
  destruct (scatter_loop_axes _ _ _ _ Hloop) as [Hx Hy].
  destruct ax0 as [x0 y0 ? ? ? ?]. cbn [xaxis yaxis] in Hx, Hy. subst x0 y0.
  eexists. split; [reflexivity|]. repeat split.
Qed.

Lemma renderable_figure (d : DataFrame) temps mags :
  renderable d temps mags →
  ∃ ms tlo thi mlo mhi fig,
    d !! "Absolute magnitude(Mv)" = Some ms ∧ numbers ms = inr mags
    ∧ is_min tlo temps ∧ is_max thi temps ∧ is_min mlo mags ∧ is_max mhi mags
    ∧ hr_figure d = inr fig
    ∧ axis_scale (xaxis (primary fig)) = Log
    ∧ axis_lim (xaxis (primary fig))
      = axis.grow (inject_Z 3000) (inject_Z 40000)
          (axis.log_lim (1, 0)%Q (thi * (11 # 10), tlo * (9 # 10))%Q)
    ∧ axis_scale (yaxis (primary fig)) = Linear
    ∧ axis_lim (yaxis (primary fig)) = (padded ms mhi 1, padded ms mlo (-1))
    ∧ axis_scale (xaxis (spectral fig)) = Log
    ∧ axis_lim (xaxis (spectral fig))
      = (let l := axis.grow (inject_Z 2000) (inject_Z 40000)
                    (axis.log_lim (0, 1)%Q (tlo * (9 # 10), thi * (11 # 10))%Q) in
         (snd l, fst l)).
Proof.
  intros [[n Hwf] [labels Hl] [colors Hc] Hs [ts [Ht Hts]] [ms [Hm Hms]] Hne].
  destruct (for_each_returns (scatter_group d)
              (zip (unique labels) (unique colors)) new_axes) as [ax0 Hloop].
  { intros ax group. eapply scatter_group_returns; eauto. }
  assert (mags ≠ []) as Hne'.
  { intros ->. apply Hne. apply length_zero_iff_nil.
    rewrite (numbers_length _ _ Hts), (Hwf _ _ Ht), <- (Hwf _ _ Hm),
      <- (numbers_length _ _ Hms). done. }
  destruct (extremum_min temps Hne) as (tlo & Htlo & ?).
  destruct (extremum_max temps Hne) as (thi & Hthi & ?).
  destruct (extremum_min mags Hne') as (mlo & Hmlo & ?).
  destruct (extremum_max mags Hne') as (mhi & Hmhi & ?).
  destruct (hr_figure_ok d labels colors ax0 ts temps tlo thi ms mags mlo mhi)
    as (fig & Hfig & _ & _ & Hrest); try done.
  exists ms, tlo, thi, mlo, mhi, fig.
  do 6 (split; [done|]). split; [done|]. exact Hrest.
Qed.

Lemma plot_hr_diagram_shows df d fig w :
  heap w !! df = Some d →
  hr_figure d = inr fig →
  plot_hr_diagram df w
  = (mkWorld (files w) (heap w) (stdout w) (shown w ++ [fig]), inr ()).
Proof.
  intros Hd Hfig. unfold plot_hr_diagram, mbind, M_bind, deref, lift, show.
  rewrite Hd. cbv beta iota zeta. cbn [default]. unfold id. by rewrite Hfig.
Qed.


(** ** C4 *)

(** C4. Whatever axes and magnitude range it is given,
    [create_luminosity_axis] returns an axis with limits 1e-6 and 1e6 and
    major ticks at the 13 powers of ten from 10^-6 to 10^6; any two calls
    agree on both. *)
Theorem luminosity_axis_fixed (ax : Axes) (mv_range : option Q * option Q) :
  ∃ ax3,
    create_luminosity_axis ax mv_range = inr ax3
    ∧ axis_lim (yaxis ax3) = (1 # 1000000, inject_Z 1000000)%Q
    ∧ axis_ticks (yaxis ax3)
      = Some ((λ i, Qpower (inject_Z 10) i) <$> [-6; -5; -4; -3; -2; -1; 0; 1; 2; 3; 4; 5; 6])
    ∧ (length <$> axis_ticks (yaxis ax3)) = Some 13%nat
    ∧ ∀ ax' mv_range', ∃ ax3',
        create_luminosity_axis ax' mv_range' = inr ax3'
        ∧ axis_lim (yaxis ax3') = axis_lim (yaxis ax3)
        ∧ axis_ticks (yaxis ax3') = axis_ticks (yaxis ax3).
Proof.
  eexists. split; [reflexivity|]. repeat split.
  intros ax' mv_range'. eexists. split; [reflexivity|]. by split.
Qed.

(** ** [unique] on the derived columns *)

Section unique_of_codes.
Variable f : Z → value.
Hypothesis f_eqb : ∀ a b, 0 ≤ a ≤ 5 → 0 ≤ b ≤ 5 → value_eqb (f a) (f b) = (a =? b).

Lemma existsb_fmap_code k seen :
  0 ≤ k ≤ 5 → Forall (λ a, 0 ≤ a ≤ 5) seen →
  existsb (value_eqb (f k)) (f <$> seen) = existsb (Z.eqb k) seen.
Proof.
  intros Hk. induction 1 as [|a seen Ha _ IH]; [done|].
  rewrite fmap_cons. cbn [existsb]. by rewrite f_eqb, IH.
Qed.

Lemma unique_from_fmap seen ks :
  Forall (λ a, 0 ≤ a ≤ 5) seen → Forall (λ a, 0 ≤ a ≤ 5) ks →
  unique_from (f <$> seen) (f <$> ks) = f <$> dedup_from seen ks.
Proof.
  intros Hseen Hks. revert seen Hseen.
  induction Hks as [|k ks Hk _ IH]; intros seen Hseen; [done|].
  rewrite fmap_cons. cbn [unique_from dedup_from].
  rewrite existsb_fmap_code by done.
  destruct (existsb (Z.eqb k) seen).
  - by apply IH.
  - rewrite fmap_cons. f_equal. apply (IH (k :: seen)). by constructor.
Qed.

Lemma unique_fmap ks :
  Forall (λ a, 0 ≤ a ≤ 5) ks → unique (f <$> ks) = f <$> dedup_from [] ks.
Proof. intros Hks. by apply (unique_from_fmap []). Qed.

End unique_of_codes.

Lemma existsb_Zeqb k seen : existsb (Z.eqb k) seen = true ↔ k ∈ seen.
Proof.
  rewrite existsb_exists. split.
  - intros (x & Hin & Heq). apply Z.eqb_eq in Heq as ->. by apply list_elem_of_In.
  - intros Hin. exists k. split; [by apply list_elem_of_In|apply Z.eqb_refl].
Qed.

Lemma elem_of_dedup_from k seen ks :
  k ∈ dedup_from seen ks ↔ k ∈ ks ∧ k ∉ seen.
Proof.
  revert seen. induction ks as [|x ks IH]; intros seen; simpl.
  - split; [by intros ?%elem_of_nil|by intros [?%elem_of_nil _]].
  - destruct (existsb (Z.eqb x) seen) eqn:Hx.
    + apply existsb_Zeqb in Hx. rewrite IH, elem_of_cons. split.
      * intros [? ?]. split; [by right|done].
      * intros [[->|?] ?]; [done|by split].
    + assert (x ∉ seen) as Hnot.
      { intros Hin. apply existsb_Zeqb in Hin. congruence. }
      rewrite !elem_of_cons, IH, not_elem_of_cons. split.
      * intros [->|[? [? ?]]]; [by split; [left|]|by split; [right|]].
      * intros [Hk ?]. destruct (decide (k = x)) as [->|Hne]; [by left|right].
        split; [|done]. by destruct Hk as [->|?].
Qed.

Lemma NoDup_dedup_from seen ks : NoDup (dedup_from seen ks).
Proof.
  revert seen. induction ks as [|x ks IH]; intros seen; simpl.
  - constructor.
  - destruct (existsb (Z.eqb x) seen); [apply IH|].
    constructor; [|apply IH].
    rewrite elem_of_dedup_from, not_elem_of_cons. by intros [_ [? _]].
Qed.

(** The distinct codes of a table covering 0..5 are the six codes. *)
Lemma dedup_six ks :
  Forall (λ a, 0 ≤ a ≤ 5) ks →
  (∀ code, 0 ≤ code ≤ 5 → code ∈ ks) →
  dedup_from [] ks ≡ₚ [0; 1; 2; 3; 4; 5].
Proof.
  intros Hvalid Hcover. apply NoDup_Permutation.
  - apply NoDup_dedup_from.
  - apply (NoDup_seqZ 0 6).
  - intros k. rewrite elem_of_dedup_from.
    rewrite Forall_forall in Hvalid. split.
    + intros [Hin _]. specialize (Hvalid _ Hin).
      change [0; 1; 2; 3; 4; 5] with (seqZ 0 6). apply elem_of_seqZ. lia.
    + intros Hin. change [0; 1; 2; 3; 4; 5] with (seqZ 0 6) in Hin.
      apply elem_of_seqZ in Hin. split; [apply Hcover; lia|apply not_elem_of_nil].
Qed.

Lemma zip_fmap_same {A B C} (f : A → B) (g : A → C) (l : list A) :
  zip (f <$> l) (g <$> l) = (λ x, (f x, g x)) <$> l.
Proof.
  induction l as [|x l IH]; [done|].
  rewrite !fmap_cons. cbn [zip_with]. f_equal. exact IH.
Qed.

Lemma label_cell_eqb a b :
  0 ≤ a ≤ 5 → 0 ≤ b ≤ 5 → value_eqb (label_cell a) (label_cell b) = (a =? b).
Proof.
  intros Ha Hb.
  assert (a = 0 ∨ a = 1 ∨ a = 2 ∨ a = 3 ∨ a = 4 ∨ a = 5) as Hac by lia.
  assert (b = 0 ∨ b = 1 ∨ b = 2 ∨ b = 3 ∨ b = 4 ∨ b = 5) as Hbc by lia.
  destruct Hac as [->|[->|[->|[->|[->| ->]]]]];
    destruct Hbc as [->|[->|[->|[->|[->| ->]]]]]; by vm_compute.
Qed.

Lemma color_cell_eqb a b :
  0 ≤ a ≤ 5 → 0 ≤ b ≤ 5 → value_eqb (color_cell a) (color_cell b) = (a =? b).
Proof.
  intros Ha Hb.
  assert (a = 0 ∨ a = 1 ∨ a = 2 ∨ a = 3 ∨ a = 4 ∨ a = 5) as Hac by lia.
  assert (b = 0 ∨ b = 1 ∨ b = 2 ∨ b = 3 ∨ b = 4 ∨ b = 5) as Hbc by lia.
  destruct Hac as [->|[->|[->|[->|[->| ->]]]]];
    destruct Hbc as [->|[->|[->|[->|[->| ->]]]]]; by vm_compute.
Qed.

(** ** The scatter loop on a classified table *)

Lemma valid_code_range x : valid_code x → 0 ≤ code_of x ≤ 5.
Proof. intros (z & Hk & Hz). unfold code_of. by rewrite Hk. Qed.

Lemma select_code_head (g : Z → value) k ks :
  k ∈ ks → ∃ rest, select ((λ k', k' =? k) <$> ks) (g <$> ks) = g k :: rest.
Proof.
  induction ks as [|k0 ks IH]; intros Hin; [by apply elem_of_nil in Hin|].
  rewrite !fmap_cons. cbn [select].
  destruct (k0 =? k) eqn:Heq.
  - apply Z.eqb_eq in Heq as ->. by eexists.
  - apply elem_of_cons in Hin as [->|Hin]; [by rewrite Z.eqb_refl in Heq|].
    by apply IH.
Qed.

Section classified.
Variables (d : DataFrame) (st ts ms : Series).
Hypothesis Hst : Forall valid_code st.
Hypothesis Hts : d !! "Temperature (K)" = Some ts.
Hypothesis Hms : d !! "Absolute magnitude(Mv)" = Some ms.

Let ks : list Z := code_of <$> st.

Lemma codes_in_range : Forall (λ a, 0 ≤ a ≤ 5) ks.
Proof.
  subst ks. apply Forall_fmap. eapply Forall_impl; [exact Hst|].
  intros x Hx. by apply valid_code_range.
Qed.

Lemma enriched_label : enriched d st !! "Star type label" = Some (label_cell <$> ks).
Proof.
  unfold enriched. rewrite !lookup_insert_ne by done. rewrite lookup_insert_eq.
  subst ks. by rewrite <- list_fmap_compose.
Qed.

Lemma enriched_size : enriched d st !! "Marker size" = Some (size_cell <$> ks).
Proof.
  unfold enriched. rewrite lookup_insert_ne by done. rewrite lookup_insert_eq.
  subst ks. by rewrite <- list_fmap_compose.
Qed.

Lemma enriched_color : enriched d st !! "Color" = Some (color_cell <$> ks).
Proof.
  unfold enriched. rewrite lookup_insert_eq.
  subst ks. by rewrite <- list_fmap_compose.
Qed.

Lemma enriched_temperature : enriched d st !! "Temperature (K)" = Some ts.
Proof. unfold enriched. by rewrite !lookup_insert_ne. Qed.

Lemma enriched_magnitude : enriched d st !! "Absolute magnitude(Mv)" = Some ms.
Proof. unfold enriched. by rewrite !lookup_insert_ne. Qed.

Lemma label_mask k :
  0 ≤ k ≤ 5 →
  (λ v, value_eqb v (label_cell k)) <$> (label_cell <$> ks) = (λ k', k' =? k) <$> ks.
Proof.
  intros Hk. rewrite <- list_fmap_compose.
  apply Forall_fmap_ext. eapply Forall_impl; [apply codes_in_range|].
  intros a Ha. simpl. by apply label_cell_eqb.
Qed.

Lemma scatter_group_classified ax k :
  k ∈ ks →
  scatter_group (enriched d st) ax (label_cell k, color_cell k)
  = inr (mkAxes (xaxis ax) (yaxis ax) (title ax) (layers ax ++ [layer_of ks ts ms k])
           (legend_of ax) (grid_on ax)).
Proof.
  intros Hin.
  assert (0 ≤ k ≤ 5) as Hk.
  { pose proof codes_in_range as Hr. rewrite Forall_forall in Hr. auto. }
  unfold scatter_group, column. rewrite enriched_label. simpl.
  rewrite (label_mask k Hk).
  destruct (select_code_head size_cell k ks Hin) as [rest Hsel].
  assert (df_empty (boolean_index (enriched d st) ((λ k', k' =? k) <$> ks)) = false)
    as ->.
  { unfold df_empty. apply bool_decide_eq_false. intros Hall.
    specialize (Hall "Marker size" (size_cell k :: rest)).
    unfold boolean_index in Hall. rewrite lookup_fmap, enriched_size in Hall.
    simpl in Hall. rewrite Hsel in Hall. by specialize (Hall eq_refl). }
  simpl. unfold boolean_index.
  rewrite !lookup_fmap, enriched_temperature, enriched_magnitude, enriched_size.
  simpl. rewrite Hsel. reflexivity.
Qed.

Lemma scatter_loop_classified codes ax :
  Forall (λ k, k ∈ ks) codes →
  for_each (scatter_group (enriched d st))
    ((λ k, (label_cell k, color_cell k)) <$> codes) ax
  = inr (mkAxes (xaxis ax) (yaxis ax) (title ax)
           (layers ax ++ (layer_of ks ts ms <$> codes)) (legend_of ax) (grid_on ax)).
Proof.
  intros Hcodes. revert ax. induction Hcodes as [|k codes Hk _ IH]; intros ax.
  - simpl. rewrite app_nil_r. by destruct ax.
  - rewrite fmap_cons. cbn [for_each].
    rewrite (scatter_group_classified ax k Hk). simpl.
    rewrite IH. simpl. by rewrite <- app_assoc.
Qed.

Lemma scatter_layers_classified :
  for_each (scatter_group (enriched d st))
    (zip (unique (label_cell <$> ks)) (unique (color_cell <$> ks))) new_axes
  = inr (mkAxes new_axis new_axis "" (layer_of ks ts ms <$> dedup_from [] ks) None false).
Proof.
  rewrite (unique_fmap label_cell label_cell_eqb), (unique_fmap color_cell color_cell_eqb)
    by apply codes_in_range.
  rewrite zip_fmap_same, scatter_loop_classified; [done|].
  apply Forall_forall. intros k Hk. by apply elem_of_dedup_from in Hk as [? _].
Qed.

End classified.

(** ** C8 *)

Lemma layer_of_matches ks ts ms k :
  0 ≤ k ≤ 5 → layer_matches_descriptor (layer_of ks ts ms k).
Proof.
  intros Hk. destruct (proj2 (star_type_map_dom k) Hk) as [t Ht].
  exists k, t. unfold layer_of, label_cell, size_cell, color_cell, descriptor.
  rewrite Ht. simpl. repeat split; (done || lia).
Qed.

(** C8. For a table of equally long columns whose codes are all recognised
    and cover 0..5, classification followed by rendering succeeds, shows
    one figure, and that figure has exactly six scatter layers: each layer
    carries the label, marker size and colour that the dictionary gives
    one code, the six layer labels are the six fixed labels, each once,
    and the legend lists exactly these layer labels. *)
Theorem six_scatter_layers (w : world) (df : loc) (d : DataFrame) (n : nat)
    (st ts ms : Series) (temps mags : list Q) :
  heap w !! df = Some d →
  map_Forall (λ _ s, length s = n) d →
  d !! "Star type" = Some st →
  Forall valid_code st →
  (∀ code, 0 ≤ code ≤ 5 → code ∈ code_of <$> st) →
  d !! "Temperature (K)" = Some ts →
  numbers ts = inr temps →
  d !! "Absolute magnitude(Mv)" = Some ms →
  numbers ms = inr mags →
  ∃ w1 w2 fig,
    map_star_types df w = (w1, inr df)
    ∧ plot_hr_diagram df w1 = (w2, inr ())
    ∧ shown w2 = shown w ++ [fig]
    ∧ length (layers (primary fig)) = 6%nat
    ∧ Forall layer_matches_descriptor (layers (primary fig))
    ∧ layer_label <$> layers (primary fig)
      ≡ₚ VStr <$> ["Red Dwarf"; "Brown Dwarf"; "White Dwarf"; "Main Sequence";
                   "Giant"; "Supergiant"]
    ∧ NoDup (layer_label <$> layers (primary fig))
    ∧ legend_of (primary fig)
      = Some (mkLegend "Stellar Classification" (layer_label <$> layers (primary fig))).
Proof.
  intros Hd Hwf Hst Hvalid Hcover Hts Htemps Hms Hmags.
  set (ks := code_of <$> st).
  pose proof (codes_in_range st Hvalid) as Hrange. fold ks in Hrange.
  pose proof (dedup_six ks Hrange Hcover) as Hperm.
  assert (temps ≠ [] ∧ mags ≠ []) as [Hnt Hnm].
  { assert (length st ≠ 0%nat) as Hlen.
    { specialize (Hcover 0 ltac:(lia)). subst ks.
      destruct st; [by apply elem_of_nil in Hcover|done]. }
    split; intros ->.
    - apply numbers_length in Htemps. simpl in Htemps.
      rewrite (Hwf _ _ Hts), <- (Hwf _ _ Hst) in Htemps. done.
    - apply numbers_length in Hmags. simpl in Hmags.
      rewrite (Hwf _ _ Hms), <- (Hwf _ _ Hst) in Hmags. done. }
  destruct (extremum_min temps Hnt) as (tlo & Htlo & _).
  destruct (extremum_max temps Hnt) as (thi & Hthi & _).
  destruct (extremum_min mags Hnm) as (mlo & Hmlo & _).
  destruct (extremum_max mags Hnm) as (mhi & Hmhi & _).
  destruct (hr_figure_ok (enriched d st) (label_cell <$> ks) (color_cell <$> ks)
              (mkAxes new_axis new_axis "" (layer_of ks ts ms <$> dedup_from [] ks)
                 None false)
              ts temps tlo thi ms mags mlo mhi)
    as (fig & Hfig & Hlayers & Hlegend & _);
    [by apply enriched_label|by apply enriched_color
    |by apply scatter_layers_classified|by apply enriched_temperature|done|done|done
    |by apply enriched_magnitude|done|done|done|].
  cbn [layers] in Hlayers, Hlegend.
  eexists _, _, fig. split; [by apply map_star_types_ok|]. split.
  { apply plot_hr_diagram_shows with (d := enriched d st); [|done].
    cbn [heap set_heap]. apply lookup_insert_eq. }
  cbn [shown set_heap]. split; [done|].
  rewrite Hlegend, Hlayers, <- list_fmap_compose.
  split; [|split; [|split; [|split; [|done]]]].
  - rewrite length_fmap. by rewrite Hperm.
  - apply Forall_fmap, Forall_forall. intros k Hk.
    apply layer_of_matches. rewrite Hperm in Hk.
    change [0; 1; 2; 3; 4; 5] with (seqZ 0 6) in Hk.
    apply elem_of_seqZ in Hk. lia.
  - rewrite Hperm. reflexivity.
  - rewrite Hperm.
    change (NoDup (VStr <$> ["Red Dwarf"; "Brown Dwarf"; "White Dwarf";
                             "Main Sequence"; "Giant"; "Supergiant"])).
    apply NoDup_fmap_2; [by intros ?? [=]|].
    apply (bool_decide_unpack _). by vm_compute.
Qed.

(** ** The scenario of the specification *)


Lemma six_temps_min : is_min (inject_Z 3000) six_temps.
Proof.
  split; [by left|]. unfold six_temps.
  repeat (apply Forall_cons; split; [by vm_compute|]). by apply Forall_nil.
Qed.

Lemma six_temps_max : is_max (inject_Z 40000) six_temps.
Proof.
  split; [right; by left|]. unfold six_temps.
  repeat (apply Forall_cons; split; [by vm_compute|]). by apply Forall_nil.
Qed.




(** ** The temperature limits after the ticks are set *)

Lemma Qle_bool_false a b : (b < a)%Q → Qle_bool a b = false.
Proof.
  intros Hlt. destruct (Qle_bool a b) eqn:Hle; [|done].
  apply Qle_bool_iff in Hle. lra.
Qed.

Lemma Qle_bool_true a b : (a <= b)%Q → Qle_bool a b = true.
Proof. apply Qle_bool_iff. Qed.

(** With positive temperatures, what [set_xlim] stored is then widened by
    the ticks: the primary axis runs from the larger of 40000 and 1.1·Tmax
    down to the smaller of 3000 and 0.9·Tmin, the spectral twin from the
    same first limit down to the smaller of 2000 and 0.9·Tmin. *)
Lemma temperature_limits_after_ticks (d : DataFrame) (temps mags : list Q) :
  renderable d temps mags →
  Forall (λ t, (0 < t)%Q) temps →
  ∃ tlo thi fig,
    is_min tlo temps ∧ is_max thi temps
    ∧ hr_figure d = inr fig
    ∧ axis_lim (xaxis (primary fig))
      = (Qmax' (inject_Z 40000) (thi * (11 # 10)), Qmin' (inject_Z 3000) (tlo * (9 # 10)))%Q
    ∧ axis_lim (xaxis (spectral fig))
      = (Qmax' (inject_Z 40000) (thi * (11 # 10)), Qmin' (inject_Z 2000) (tlo * (9 # 10)))%Q.
Proof.
  intros Hr Hpos.
  destruct (renderable_figure d temps mags Hr)
    as (ms & tlo & thi & mlo & mhi & fig & _ & _ & Htlo & Hthi & _ & _ & Hfig
        & _ & Hlim & _ & _ & _ & Hlim2).
  exists tlo, thi, fig. do 3 (split; [done|]).
  pose proof (is_min_le_max _ _ _ Htlo Hthi) as Hle.
  rewrite Forall_forall in Hpos.
  pose proof (Hpos _ (proj1 Htlo)) as Hlo. pose proof (Hpos _ (proj1 Hthi)) as Hhi.
  rewrite Hlim, Hlim2. unfold axis.log_lim, axis.grow. cbn [fst snd].
  rewrite !(Qle_bool_false _ 0) by lra.
  rewrite (Qle_bool_true (tlo * (9 # 10)) (thi * (11 # 10))) by lra.
  rewrite (Qle_bool_false (thi * (11 # 10)) (tlo * (9 # 10))) by lra.
  done.
Qed.

(** ** C2 *)

(** C2. The displayed temperature domain is not the padded range.  On the
    table of five stars from 2900 K to 7200 K, [set_xlim] is handed the
    padded limits 7920 and 2610, and the later [set_xticks] with ticks up
    to 40000 widens the view: the figure's primary x axis runs from 40000
    down to 2610. *)
Theorem temperature_axis_widened_by_ticks :
  is_min (inject_Z 2900) five_temps ∧ is_max (inject_Z 7200) five_temps
  ∧ ∃ fig,
      hr_figure (enriched five_stars five_codes) = inr fig
      ∧ ((axis_lim (xaxis (primary fig))).1 == inject_Z 40000)%Q
      ∧ ((axis_lim (xaxis (primary fig))).2 == inject_Z 2610)%Q
      ∧ ¬ ((axis_lim (xaxis (primary fig))).1 == (11 # 10) * inject_Z 7200)%Q.
Proof.
  split; [|split].
  - split; [do 4 right; by left|]. unfold five_temps.
    repeat (apply Forall_cons; split; [by vm_compute|]). by apply Forall_nil.
  - split; [do 3 right; by left|]. unfold five_temps.
    repeat (apply Forall_cons; split; [by vm_compute|]). by apply Forall_nil.
  - eexists. split; [by vm_compute|]. by vm_compute.
Qed.

(** ** C3 *)






(** ** C6 *)

(** C6. The spectral-class axis does not stay aligned with the primary
    temperature axis.  In the scenario of the specification (3000 K to
    40000 K) both axes are handed the padded limits 2700 and 44000, but
    the ticks of the primary axis stop at 3000 and those of the twin at
    2000, and each [set_xticks] widens its own axis: the primary runs
    from 44000 down to 2700, the twin from 44000 down to 2000. *)
Theorem spectral_axis_misaligned :
  is_min (inject_Z 3000) six_temps ∧ is_max (inject_Z 40000) six_temps
  ∧ ∃ fig,
      hr_figure (enriched six_stars six_codes) = inr fig
      ∧ ((axis_lim (xaxis (primary fig))).1 == inject_Z 44000)%Q
      ∧ ((axis_lim (xaxis (primary fig))).2 == inject_Z 2700)%Q
      ∧ ((axis_lim (xaxis (spectral fig))).1 == inject_Z 44000)%Q
      ∧ ((axis_lim (xaxis (spectral fig))).2 == inject_Z 2000)%Q
      ∧ ¬ ((axis_lim (xaxis (spectral fig))).2 == (axis_lim (xaxis (primary fig))).2)%Q.
Proof.
  split; [apply six_temps_min|]. split; [apply six_temps_max|].
  eexists. split; [by vm_compute|]. by vm_compute.
Qed.

(** ** C9 *)

(** C9. The luminosity axis gets no minor ticks.  Its minor locator has
    base 10 and the multiples 1 to 9 but no [numticks]; over the decades
    from 1e-6 to 1e6 the library then takes a stride of at least two
    decades, whatever the room on the axis, and a locator with multiples
    yields no tick at such a stride.  The major ticks do carry the
    exponent labels [$10^{i}$]. *)
Theorem luminosity_minor_ticks_absent (ax : Axes) (mv_range : option Q * option Q)
    (tick_space : Z) :
  ∃ ax3 l,
    create_luminosity_axis ax mv_range = inr ax3
    ∧ axis_minor_locator (yaxis ax3) = Some l
    ∧ loc_subs l = inject_Z <$> [1; 2; 3; 4; 5; 6; 7; 8; 9]
    ∧ loc_numticks l = None
    ∧ tick_values l tick_space (axis_lim (yaxis ax3)).1 (axis_lim (yaxis ax3)).2 = Ticks []
    ∧ axis_ticklabels (yaxis ax3)
      = Some ["$10^{-6}$"; "$10^{-5}$"; "$10^{-4}$"; "$10^{-3}$"; "$10^{-2}$";
              "$10^{-1}$"; "$10^{0}$"; "$10^{1}$"; "$10^{2}$"; "$10^{3}$";
              "$10^{4}$"; "$10^{5}$"; "$10^{6}$"].
Proof.
  do 2 eexists. split; [reflexivity|]. split; [reflexivity|].
  split; [reflexivity|]. split; [reflexivity|]. split; [|reflexivity].
  cbn [axis_lim yaxis on_yaxis fst snd].
  unfold tick_values. cbn [loc_numticks loc_base loc_subs].
  assert (clip tick_space 2 9 = 2 ∨ clip tick_space 2 9 = 3 ∨ clip tick_space 2 9 = 4
          ∨ clip tick_space 2 9 = 5 ∨ clip tick_space 2 9 = 6 ∨ clip tick_space 2 9 = 7
          ∨ clip tick_space 2 9 = 8 ∨ clip tick_space 2 9 = 9) as Hn
    by (unfold clip; lia).
  destruct Hn as [->|[->|[->|[->|[->|[->|[->| ->]]]]]]]; by vm_compute.
Qed.

Lemma six_scatter_layers_witness :
  ∃ w1 w2 fig,
    map_star_types 1%positive six_stars_world = (w1, inr 1%positive)
    ∧ plot_hr_diagram 1%positive w1 = (w2, inr ())
    ∧ shown w2 = [fig]
    ∧ length (layers (primary fig)) = 6%nat
    ∧ Forall layer_matches_descriptor (layers (primary fig))
    ∧ layer_label <$> layers (primary fig)
      ≡ₚ VStr <$> ["Red Dwarf"; "Brown Dwarf"; "White Dwarf"; "Main Sequence";
                   "Giant"; "Supergiant"].
Proof.
  destruct (six_scatter_layers six_stars_world 1%positive six_stars 6%nat six_codes
              (VInt <$> [3000; 40000; 3500; 8500; 6100; 4200])
              [VFloat (15 # 1); VInt (-10); VFloat (1402 # 100); VFloat (1205 # 100);
               VFloat (45 # 10); VFloat (-3 # 10)]
              six_temps six_mags)
    as (w1 & w2 & fig & Hmap & Hplot & Hshown & Hlen & Hall & Hperm & _).
  - by vm_compute.
  - apply (bool_decide_unpack _). by vm_compute.
  - by vm_compute.
  - apply (bool_decide_unpack _). by vm_compute.
  - intros code Hcode.
    assert (code = 0 ∨ code = 1 ∨ code = 2 ∨ code = 3 ∨ code = 4 ∨ code = 5)
      as Hc by lia.
    change (code_of <$> six_codes) with [0; 5; 1; 2; 3; 4].
    rewrite !elem_of_cons. tauto.
  - by vm_compute.
  - by vm_compute.
  - by vm_compute.
  - by vm_compute.
  - exists w1, w2, fig. by repeat split.
Defined.

Lemma load_data_missing_column_witness :
  ∃ w',
    load_data (E := exn) "6 class csv.csv" incomplete_world = (w', inr None)
    ∧ stdout w' = ["Error loading data: Dataset must contain required columns: Temperature (K), Luminosity(L/Lo), Absolute magnitude(Mv), Star type, Spectral Class"]
    ∧ shown w' = []
    ∧ main incomplete_world = (w', inr ()).
Proof.
  destruct (load_data_missing_column incomplete_world "6 class csv.csv"
              (delete "Spectral Class" six_stars) "Spectral Class")
    as (w' & Hload & Hout & Hshown & _ & _ & Hmain).
  - by vm_compute.
  - unfold required_columns. rewrite !elem_of_cons. tauto.
  - by vm_compute.
  - exists w'. split; [exact Hload|]. split; [exact Hout|]. split; [exact Hshown|].
    exact (Hmain eq_refl map_star_types plot_hr_diagram).
Defined.

(** * Further properties of the script *)

(** ** [load_data] *)

Lemma forallb_has_column (d : DataFrame) cols :
  forallb (has_column d) cols = true ↔ Forall (λ col, is_Some (d !! col)) cols.
Proof.
  induction cols as [|col cols IH]; simpl.
  - split; [by constructor|done].
  - rewrite andb_true_iff, IH, Forall_cons. unfold has_column.
    by rewrite bool_decide_eq_true.
Qed.

Lemma load_data_accepts {E} path d w :
  files w !! path = Some (ReadOk d) →
  Forall (λ col, is_Some (d !! col)) required_columns →
  load_data (E := E) path w
  = (set_heap (<[fresh (dom (heap w)) := d]> (heap w)) w,
     inr (Some (fresh (dom (heap w))))).
Proof.
  intros Hfile Hcols. unfold load_data, try_except.
  erewrite bind_ok; [|unfold read_csv; rewrite Hfile; reflexivity].
  erewrite bind_ok; [|reflexivity].
  cbn [heap set_heap]. rewrite lookup_insert_eq. cbn [default].
  apply forallb_has_column in Hcols. unfold id. rewrite Hcols. reflexivity.
Qed.

Lemma fresh_loc_unused (w : world) : heap w !! fresh (dom (heap w)) = None.
Proof. apply not_elem_of_dom. apply is_fresh. Qed.

(** X1. Whatever [load_data] returns as a table has been validated: the
    reference is new, the object behind it is the table as the reader
    produced it, that table has all five required columns, and nothing was
    printed or shown. *)
Theorem load_data_returns_validated (w w' : world) (path : string) (df : loc) :
  load_data (E := exn) path w = (w', inr (Some df)) →
  ∃ d,
    files w !! path = Some (ReadOk d)
    ∧ heap w !! df = None
    ∧ heap w' !! df = Some d
    ∧ Forall (λ col, is_Some (d !! col)) required_columns
    ∧ (∀ l t, heap w !! l = Some t → heap w' !! l = Some t)
    ∧ stdout w' = stdout w
    ∧ shown w' = shown w.
Proof.
  intros Hrun.
  destruct (files w !! path) as [[msg|d]|] eqn:Hfile.
  - rewrite (load_data_reader_failure path msg w Hfile) in Hrun. by inversion Hrun.
  - destruct (forallb (has_column d) required_columns) eqn:Hcols.
    + apply forallb_has_column in Hcols.
      rewrite (load_data_accepts path d w Hfile Hcols) in Hrun.
      injection Hrun as <- <-. exists d. cbn [heap set_heap stdout shown].
      split; [done|]. split; [apply fresh_loc_unused|].
      split; [apply lookup_insert_eq|]. split; [done|]. split; [|done].
      intros l t Hl. rewrite lookup_insert_ne; [done|].
      intros <-. by rewrite fresh_loc_unused in Hl.
    + exfalso. unfold load_data, try_except in Hrun.
      erewrite bind_ok in Hrun; [|unfold read_csv; rewrite Hfile; reflexivity].
      erewrite bind_ok in Hrun; [|reflexivity].
      cbn [heap set_heap] in Hrun. rewrite lookup_insert_eq in Hrun.
      cbn [default] in Hrun. unfold id in Hrun. rewrite Hcols in Hrun.
      by inversion Hrun.
  - exfalso. unfold load_data, try_except in Hrun.
    erewrite bind_raise in Hrun; [|unfold read_csv; rewrite Hfile; reflexivity].
    by inversion Hrun.
Qed.

Lemma load_data_returns_validated_witness :
  ∃ d,
    files six_stars_file !! "6 class csv.csv" = Some (ReadOk d)
    ∧ heap (load_data (E := exn) "6 class csv.csv" six_stars_file).1 !! 1%positive = Some d
    ∧ Forall (λ col, is_Some (d !! col)) required_columns.
Proof.
  destruct (load_data_returns_validated six_stars_file
              (load_data (E := exn) "6 class csv.csv" six_stars_file).1
              "6 class csv.csv" 1%positive)
    as (d & Hfile & _ & Hd & Hcols & _); [by vm_compute|].
  exists d. split; [exact Hfile|]. split; [exact Hd|exact Hcols].
Defined.

(** X2. When the reader yields no table (the file is missing or cannot be
    parsed) [load_data] prints one line, ["Error loading data: "] followed
    by the text of the reader's exception, returns [None] and creates no
    object; [main] then ends normally without calling the classifier or
    the renderer. *)
Theorem load_data_reader_error (w : world) (path : string) :
  (∀ d, files w !! path ≠ Some (ReadOk d)) →
  ∃ msg,
    load_data (E := exn) path w
    = (mkWorld (files w) (heap w) (stdout w ++ ["Error loading data: " +:+ msg]) (shown w),
       inr None)
    ∧ (∀ m, files w !! path = Some (ReadFails m) → msg = m)
    ∧ (path = "6 class csv.csv" →
       ∀ classify render,
         main_with classify render w
         = (mkWorld (files w) (heap w) (stdout w ++ ["Error loading data: " +:+ msg])
              (shown w), inr ())).
Proof.
  intros Hno.
  assert (∃ msg, load_data (E := exn) path w
    = (mkWorld (files w) (heap w) (stdout w ++ ["Error loading data: " +:+ msg]) (shown w),
       inr None)
    ∧ (∀ m, files w !! path = Some (ReadFails m) → msg = m)) as (msg & Hrun & Hmsg).
  { destruct (files w !! path) as [[m|d]|] eqn:Hfile.
    - exists m. split; [by apply load_data_reader_failure|]. by intros ? [= <-].
    - by destruct (Hno d).
    - eexists. split; [|done]. unfold load_data, try_except.
      erewrite bind_raise; [|unfold read_csv; rewrite Hfile; reflexivity].
      reflexivity. }
  exists msg. split; [done|]. split; [done|].
  intros -> classify render. unfold main_with.
  erewrite bind_ok; [|exact Hrun]. reflexivity.
Qed.

Lemma load_data_reader_error_witness :
  main unreadable_file
  = (mkWorld (files unreadable_file) ∅
       ["Error loading data: No columns to parse from file"] [], inr ()).
Proof.
  destruct (load_data_reader_error unreadable_file "6 class csv.csv")
    as (msg & _ & Hmsg & Hmain).
  - intros d. by vm_compute.
  - rewrite (Hmsg "No columns to parse from file") in Hmain by by vm_compute.
    exact (Hmain eq_refl map_star_types plot_hr_diagram).
Defined.

(** ** [map_star_types] *)

Lemma enriched_star_type d st :
  d !! "Star type" = Some st → enriched d st !! "Star type" = Some st.
Proof. intros Hst. unfold enriched. by rewrite !lookup_insert_ne. Qed.

Lemma enriched_twice d st : enriched (enriched d st) st = enriched d st.
Proof.
  apply map_eq. intros col. unfold enriched.
  rewrite !lookup_insert. repeat case_decide; done.
Qed.

(** X3. Classifying twice is classifying once: on a table of recognised
    codes a second call of [map_star_types] succeeds again and leaves the
    whole world, the table included, exactly as the first call left it. *)
Theorem map_star_types_idempotent (w : world) (df : loc) (d : DataFrame) (st : Series) :
  heap w !! df = Some d →
  d !! "Star type" = Some st →
  Forall valid_code st →
  ∃ w1,
    map_star_types df w = (w1, inr df)
    ∧ map_star_types df w1 = (w1, inr df).
Proof.
  intros Hd Hst Hvalid. eexists. split; [by apply map_star_types_ok|].
  rewrite (map_star_types_ok df (enriched d st) st).
  - cbn [heap set_heap]. unfold set_heap. cbn [files stdout shown].
    by rewrite enriched_twice, insert_insert_eq.
  - cbn [heap set_heap]. apply lookup_insert_eq.
  - by apply enriched_star_type.
  - done.
Qed.

Lemma map_star_types_idempotent_witness :
  ∃ w1,
    map_star_types 1%positive classified_world = (w1, inr 1%positive)
    ∧ map_star_types 1%positive w1 = (w1, inr 1%positive).
Proof.
  apply (map_star_types_idempotent classified_world 1%positive classified_table
           [VInt 3; VFloat (0 # 1); VInt 5]); [by vm_compute|by vm_compute|].
  apply (bool_decide_unpack _). by vm_compute.
Defined.

(** X4. Classification keeps the table rectangular and loses nothing: if
    every column has [n] rows, then after a successful call every column
    still has [n] rows, the three derived columns are there with [n] rows
    each, and every column that was in the table is still in it. *)
Theorem map_star_types_keeps_shape (w : world) (df : loc) (d : DataFrame) (st : Series)
    (n : nat) :
  heap w !! df = Some d →
  d !! "Star type" = Some st →
  Forall valid_code st →
  map_Forall (λ _ s, length s = n) d →
  ∃ d',
    heap (map_star_types df w).1 !! df = Some d'
    ∧ map_Forall (λ _ s, length s = n) d'
    ∧ Forall (λ col, ∃ s, d' !! col = Some s ∧ length s = n) derived_columns
    ∧ (∀ col, is_Some (d !! col) → is_Some (d' !! col)).
Proof.
  intros Hd Hst Hvalid Hwf.
  rewrite (map_star_types_ok df d st w Hd Hst Hvalid). cbn [fst heap set_heap].
  exists (enriched d st). split; [apply lookup_insert_eq|].
  pose proof (Hwf _ _ Hst) as Hn.
  assert (map_Forall (λ _ s, length s = n) (enriched d st)) as Hwf'.
  { unfold enriched.
    repeat (apply map_Forall_insert_2; [by rewrite length_fmap|]). done. }
  split; [done|]. split.
  - unfold derived_columns, enriched.
    repeat (apply Forall_cons; split;
      [eexists; split; [by rewrite ?lookup_insert_ne, lookup_insert_eq by done|
                        by rewrite length_fmap]|]).
    by apply Forall_nil.
  - intros col [s Hs]. unfold enriched.
    rewrite !lookup_insert. repeat case_decide; by eexists.
Qed.

Lemma map_star_types_keeps_shape_witness :
  ∃ d',
    heap (map_star_types 1%positive six_stars_world).1 !! 1%positive = Some d'
    ∧ map_Forall (λ _ s, length s = 6%nat) d'
    ∧ is_Some (d' !! "Spectral Class").
Proof.
  destruct (map_star_types_keeps_shape six_stars_world 1%positive six_stars six_codes
              6%nat) as (d' & Hd' & Hwf & _ & Hkeep).
  - by vm_compute.
  - by vm_compute.
  - apply (bool_decide_unpack _). by vm_compute.
  - apply (bool_decide_unpack _). by vm_compute.
  - exists d'. split; [exact Hd'|]. split; [exact Hwf|].
    apply Hkeep. vm_compute. by eexists.
Defined.

(** X5. A table without a ['Star type'] column cannot be classified: the
    call raises [KeyError('Star type')] and changes nothing. *)
Theorem map_star_types_missing_column (w : world) (df : loc) (d : DataFrame) :
  heap w !! df = Some d →
  d !! "Star type" = None →
  map_star_types df w = (w, inl (KeyError (VStr "Star type"))).
Proof.
  intros Hd Hnone. unfold map_star_types.
  erewrite bind_raise; [done|]. apply getitem_missing. by rewrite Hd.
Qed.

Lemma map_star_types_missing_column_witness :
  map_star_types 1%positive untyped_world
  = (untyped_world, inl (KeyError (VStr "Star type"))).
Proof.
  apply (map_star_types_missing_column untyped_world 1%positive
           (delete "Star type" six_stars)); by vm_compute.
Defined.

(** ** [plot_hr_diagram] *)

(** X7. A table that has not been classified cannot be rendered: without
    the ['Star type label'] column [plot_hr_diagram] raises
    [KeyError('Star type label')] before anything is drawn or shown. *)
Theorem plot_hr_diagram_unclassified (w : world) (df : loc) (d : DataFrame) :
  heap w !! df = Some d →
  d !! "Star type label" = None →
  plot_hr_diagram df w = (w, inl (KeyError (VStr "Star type label"))).
Proof.
  intros Hd Hnone. unfold plot_hr_diagram, mbind, M_bind, deref, lift.
  rewrite Hd. cbv beta iota zeta. cbn [default]. unfold id.
  unfold hr_figure, column. by rewrite Hnone.
Qed.

Lemma plot_hr_diagram_unclassified_witness :
  plot_hr_diagram 1%positive six_stars_world
  = (six_stars_world, inl (KeyError (VStr "Star type label"))).
Proof.
  apply (plot_hr_diagram_unclassified six_stars_world 1%positive six_stars);
    by vm_compute.
Defined.

(** X8. A classified table without rows yields no figure: no layer is
    drawn, the minimum and maximum of the empty temperature column are
    NaN, and setting the x limits raises [ValueError]; nothing is
    shown. *)
Theorem plot_hr_diagram_no_rows (w : world) (df : loc) (d : DataFrame) (colors : Series) :
  heap w !! df = Some d →
  d !! "Star type label" = Some [] →
  d !! "Color" = Some colors →
  d !! "Temperature (K)" = Some [] →
  plot_hr_diagram df w = (w, inl (ValueError "Axis limits cannot be NaN or Inf")).
Proof.
  intros Hd Hl Hc Ht. unfold plot_hr_diagram, mbind, M_bind, deref, lift.
  rewrite Hd. cbv beta iota zeta. cbn [default]. unfold id.
  unfold hr_figure, column. rewrite Hl, Hc. simpl. by rewrite Ht.
Qed.

Lemma plot_hr_diagram_no_rows_witness :
  plot_hr_diagram 1%positive (mkWorld ∅ {[ 1%positive := no_rows_table ]} [] [])
  = (mkWorld ∅ {[ 1%positive := no_rows_table ]} [] [],
     inl (ValueError "Axis limits cannot be NaN or Inf")).
Proof.
  apply (plot_hr_diagram_no_rows _ 1%positive no_rows_table []); by vm_compute.
Defined.

(** ** Classification followed by rendering *)

Lemma classified_figure (d : DataFrame) (n : nat) (st ts ms : Series) (temps mags : list Q) :
  map_Forall (λ _ s, length s = n) d →
  d !! "Star type" = Some st →
  Forall valid_code st →
  st ≠ [] →
  d !! "Temperature (K)" = Some ts →
  numbers ts = inr temps →
  d !! "Absolute magnitude(Mv)" = Some ms →
  numbers ms = inr mags →
  ∃ fig,
    hr_figure (enriched d st) = inr fig
    ∧ layers (primary fig)
      = layer_of (code_of <$> st) ts ms <$> dedup_from [] (code_of <$> st)
    ∧ legend_of (primary fig)
      = Some (mkLegend "Stellar Classification" (layer_label <$> layers (primary fig))).
Proof.
  intros Hwf Hst Hvalid Hne Hts Htemps Hms Hmags.
  set (ks := code_of <$> st).
  assert (temps ≠ [] ∧ mags ≠ []) as [Hnt Hnm].
  { assert (length st ≠ 0%nat) as Hlen by by destruct st.
    split; intros ->.
    - apply numbers_length in Htemps. simpl in Htemps.
      rewrite (Hwf _ _ Hts), <- (Hwf _ _ Hst) in Htemps. done.
    - apply numbers_length in Hmags. simpl in Hmags.
      rewrite (Hwf _ _ Hms), <- (Hwf _ _ Hst) in Hmags. done. }
  destruct (extremum_min temps Hnt) as (tlo & Htlo & _).
  destruct (extremum_max temps Hnt) as (thi & Hthi & _).
  destruct (extremum_min mags Hnm) as (mlo & Hmlo & _).
  destruct (extremum_max mags Hnm) as (mhi & Hmhi & _).
  destruct (hr_figure_ok (enriched d st) (label_cell <$> ks) (color_cell <$> ks)
              (mkAxes new_axis new_axis "" (layer_of ks ts ms <$> dedup_from [] ks)
                 None false)
              ts temps tlo thi ms mags mlo mhi)
    as (fig & Hfig & Hlayers & Hlegend & _);
    [by apply enriched_label|by apply enriched_color
    |by apply scatter_layers_classified|by apply enriched_temperature|done|done|done
    |by apply enriched_magnitude|done|done|done|].
  cbn [layers] in Hlayers, Hlegend.
  exists fig. split; [done|]. split; [done|]. by rewrite Hlegend, Hlayers.
Qed.

Lemma sum_list_with_add {A} (f g : A → nat) (l : list A) :
  sum_list_with (λ x, f x + g x)%nat l = (sum_list_with f l + sum_list_with g l)%nat.
Proof. induction l as [|x l IH]; [done|]. simpl. rewrite IH. lia. Qed.

Lemma sum_list_with_ext {A} (f g : A → nat) (l : list A) :
  (∀ x, f x = g x) → sum_list_with f l = sum_list_with g l.
Proof. intros Hfg. induction l as [|x l IH]; [done|]. simpl. by rewrite Hfg, IH. Qed.

Lemma sum_list_with_fmap {A B} (f : B → nat) (g : A → B) (l : list A) :
  sum_list_with f (g <$> l) = sum_list_with (λ x, f (g x)) l.
Proof. induction l as [|x l IH]; [done|]. rewrite fmap_cons. simpl. by rewrite IH. Qed.

Lemma sum_list_indicator x (dk : list Z) :
  NoDup dk → x ∈ dk →
  sum_list_with (λ k, if x =? k then 1%nat else 0%nat) dk = 1%nat.
Proof.
  induction 1 as [|k dk Hk Hnd IH]; intros Hin; [by apply elem_of_nil in Hin|].
  simpl. destruct (x =? k) eqn:Heq.
  - apply Z.eqb_eq in Heq as ->.
    assert (sum_list_with (λ k0, if k =? k0 then 1%nat else 0%nat) dk = 0%nat) as ->;
      [|done].
    clear IH Hin Hnd. induction dk as [|k' dk IH]; [done|].
    apply not_elem_of_cons in Hk as [Hne Hk]. simpl.
    rewrite (IH Hk). by destruct (Z.eqb_spec k k').
  - apply elem_of_cons in Hin as [->|Hin]; [by rewrite Z.eqb_refl in Heq|].
    by rewrite (IH Hin).
Qed.

Lemma length_rows_of_cons k x ks t ts :
  length (rows_of k (x :: ks) (t :: ts))
  = ((if (x =? k)%Z then 1 else 0) + length (rows_of k ks ts))%nat.
Proof. unfold rows_of. rewrite fmap_cons. cbn [select]. by destruct (x =? k). Qed.

(** The layers of the distinct codes hold as many points as the table has
    rows. *)
Lemma sum_rows_of (ks : list Z) (ts : Series) (dk : list Z) :
  length ts = length ks → NoDup dk → (∀ k, k ∈ ks → k ∈ dk) →
  sum_list_with (λ k, length (rows_of k ks ts)) dk = length ks.
Proof.
  revert ts. induction ks as [|x ks IH]; intros ts Hlen Hnd Hin.
  - clear Hin Hnd. rewrite (sum_list_with_ext _ (λ _, 0%nat)); [|done].
    induction dk as [|k dk IHdk]; [done|]. simpl. exact IHdk.
  - destruct ts as [|t ts]; [done|]. simpl in Hlen.
    rewrite (sum_list_with_ext _ (λ k, ((if (x =? k)%Z then 1 else 0)
                                        + length (rows_of k ks ts))%nat) dk).
    + rewrite sum_list_with_add, sum_list_indicator; [|done|apply Hin; by left].
      rewrite IH; [done|lia|done|]. intros k Hk. apply Hin. by right.
    + intros k. apply length_rows_of_cons.
Qed.

Lemma rows_of_nonempty k ks (ts : Series) :
  length ts = length ks → k ∈ ks → rows_of k ks ts ≠ [].
Proof.
  intros Hlen Hin Hnil.
  destruct (select_code_head (λ _, VInt 0) k ks Hin) as [rest Hsel].
  apply (f_equal length) in Hsel. unfold rows_of in Hnil.
  rewrite (select_length_eq _ _ ts) in Hsel; [|by rewrite length_fmap].
  by rewrite Hnil in Hsel.
Qed.

Lemma label_cell_inj a b :
  0 ≤ a ≤ 5 → 0 ≤ b ≤ 5 → label_cell a = label_cell b → a = b.
Proof.
  intros Ha Hb Heq. pose proof (label_cell_eqb a b Ha Hb) as Heqb.
  rewrite Heq in Heqb. unfold label_cell in Heqb. simpl in Heqb.
  rewrite String.eqb_refl in Heqb. symmetry in Heqb. by apply Z.eqb_eq in Heqb.
Qed.

Lemma rows_of_labelled k ks (col : Series) :
  0 ≤ k ≤ 5 → Forall (λ a, 0 ≤ a ≤ 5) ks →
  rows_of k ks col = rows_labelled (label_cell k) (label_cell <$> ks) col.
Proof.
  intros Hk Hks. revert col. unfold rows_of, rows_labelled.
  induction Hks as [|a ks Ha _ IH]; intros [|c col]; try done.
  rewrite !fmap_cons. cbn [select zip_with omap list_omap fst snd].
  rewrite (label_cell_eqb a k Ha Hk).
  destruct (a =? k); cbn [omap list_omap]; by rewrite IH.
Qed.

(** X9. Every star is drawn exactly once, under its own type.  For a
    table of equally long columns with at least one row and recognised
    codes only (whichever of the six occur), classification followed by
    rendering shows one figure; its layers come in the order in which the
    labels first appear in the table, one per label, each with the size
    and colour the dictionary gives that label; the x and y values of a
    layer are the temperatures and magnitudes of exactly the rows that
    carry the layer's label, in table order; no layer is empty, and
    together the layers hold as many points as the table has rows. *)
Theorem every_star_drawn_once (w : world) (df : loc) (d : DataFrame) (n : nat)
    (st ts ms : Series) (temps mags : list Q) :
  heap w !! df = Some d →
  map_Forall (λ _ s, length s = n) d →
  d !! "Star type" = Some st →
  Forall valid_code st →
  st ≠ [] →
  d !! "Temperature (K)" = Some ts →
  numbers ts = inr temps →
  d !! "Absolute magnitude(Mv)" = Some ms →
  numbers ms = inr mags →
  ∃ w1 w2 fig labels,
    map_star_types df w = (w1, inr df)
    ∧ plot_hr_diagram df w1 = (w2, inr ())
    ∧ shown w2 = shown w ++ [fig]
    ∧ heap w1 !! df ≫= (.!! "Star type label") = Some labels
    ∧ layer_label <$> layers (primary fig) = unique labels
    ∧ NoDup (layer_label <$> layers (primary fig))
    ∧ Forall layer_matches_descriptor (layers (primary fig))
    ∧ Forall (λ L, layer_x L = rows_labelled (layer_label L) labels ts
                   ∧ layer_y L = rows_labelled (layer_label L) labels ms)
        (layers (primary fig))
    ∧ Forall (λ L, layer_x L ≠ [] ∧ length (layer_x L) = length (layer_y L))
        (layers (primary fig))
    ∧ sum_list_with (λ L, length (layer_x L)) (layers (primary fig)) = n.
Proof.
  intros Hd Hwf Hst Hvalid Hne Hts Htemps Hms Hmags.
  destruct (classified_figure d n st ts ms temps mags) as (fig & Hfig & Hlayers & _);
    try done.
  set (ks := code_of <$> st) in *.
  pose proof (codes_in_range st Hvalid) as Hrange. fold ks in Hrange.
  assert (length ts = length ks ∧ length ms = length ks) as [Hlt Hlm].
  { subst ks. rewrite length_fmap.
    by rewrite (Hwf _ _ Hts), (Hwf _ _ Hms), (Hwf _ _ Hst). }
  assert (∀ k, k ∈ dedup_from [] ks → k ∈ ks ∧ 0 ≤ k ≤ 5) as Hdk.
  { intros k Hk. apply elem_of_dedup_from in Hk as [Hk _]. split; [done|].
    rewrite Forall_forall in Hrange. auto. }
  eexists _, _, fig, (label_cell <$> ks).
  split; [by apply map_star_types_ok|]. split.
  { apply plot_hr_diagram_shows with (d := enriched d st); [|done].
    cbn [heap set_heap]. apply lookup_insert_eq. }
  cbn [shown heap set_heap]. split; [done|]. split.
  { rewrite lookup_insert_eq. simpl. by apply enriched_label. }
  rewrite Hlayers, sum_list_with_fmap, <- !list_fmap_compose.
  split; [|split; [|split; [|split; [|split]]]].
  - symmetry. by apply (unique_fmap label_cell label_cell_eqb).
  - apply NoDup_fmap_2_strong; [|apply NoDup_dedup_from].
    intros a b Ha Hb Heq. simpl in Heq.
    apply label_cell_inj; [apply Hdk, Ha|apply Hdk, Hb|done].
  - apply Forall_fmap, Forall_forall. intros k Hk.
    apply layer_of_matches. by apply Hdk.
  - apply Forall_fmap, Forall_forall. intros k Hk. simpl.
    split; apply rows_of_labelled; (by apply Hdk) || done.
  - apply Forall_fmap, Forall_forall. intros k Hk. simpl. split.
    + apply rows_of_nonempty; [done|]. by apply Hdk.
    + unfold rows_of. apply select_length_eq. by rewrite Hlt, Hlm.
  - cbn [layer_of layer_x]. rewrite (sum_rows_of ks ts); [|done|apply NoDup_dedup_from|].
    + subst ks. rewrite length_fmap. apply (Hwf _ _ Hst).
    + intros k Hk. apply elem_of_dedup_from. split; [done|apply not_elem_of_nil].
Qed.

Lemma every_star_drawn_once_witness :
  ∃ w1 w2 fig,
    map_star_types 1%positive five_stars_world = (w1, inr 1%positive)
    ∧ plot_hr_diagram 1%positive w1 = (w2, inr ())
    ∧ shown w2 = [fig]
    ∧ layer_label <$> layers (primary fig) = [VStr "Main Sequence"; VStr "Red Dwarf"]
    ∧ layer_x <$> layers (primary fig)
      = [VInt <$> [5800; 6100; 7200]; VInt <$> [3000; 2900]]
    ∧ sum_list_with (λ L, length (layer_x L)) (layers (primary fig)) = 5%nat.
Proof.
  destruct (every_star_drawn_once five_stars_world 1%positive five_stars 5%nat
              five_codes
              (VInt <$> [5800; 6100; 3000; 7200; 2900])
              (VFloat <$> [48 # 10; 44 # 10; 1402 # 100; 39 # 10; 1510 # 100]%Q)
              five_temps
              [48 # 10; 44 # 10; 1402 # 100; 39 # 10; 1510 # 100]%Q)
    as (w1 & w2 & fig & labels & Hmap & Hplot & Hshown & Hlabels & Hunique & _ & _
        & Hrows & _ & Hsum).
  - by vm_compute.
  - apply (bool_decide_unpack _). by vm_compute.
  - by vm_compute.
  - apply (bool_decide_unpack _). by vm_compute.
  - done.
  - by vm_compute.
  - by vm_compute.
  - by vm_compute.
  - by vm_compute.
  - exists w1, w2, fig. split; [exact Hmap|]. split; [exact Hplot|].
    split; [exact Hshown|].
    pose proof (f_equal fst Hmap) as Hw1. cbn [fst] in Hw1. subst w1.
    vm_compute in Hlabels. injection Hlabels as <-.
    assert (unique [VStr "Main Sequence"; VStr "Main Sequence"; VStr "Red Dwarf";
                    VStr "Main Sequence"; VStr "Red Dwarf"]
            = [VStr "Main Sequence"; VStr "Red Dwarf"]) as Hu by by vm_compute.
    rewrite Hu in Hunique. split; [exact Hunique|]. split; [|exact Hsum].
    destruct (layers (primary fig)) as [|L1 [|L2 [|L3 rest]]]; try discriminate Hunique.
    injection Hunique as H1 H2.
    apply Forall_cons in Hrows as [[Hx1 _] Hrows].
    apply Forall_cons in Hrows as [[Hx2 _] _].
    rewrite fmap_cons, fmap_cons. rewrite Hx1, Hx2, H1, H2. by vm_compute.
Defined.

(** ** [main] *)

(** X10. The whole pipeline on a good file: when the file of [main] reads
    to a table of equally long columns with at least one row, the five
    required columns, recognised codes and numbers for temperature and
    magnitude, [main] ends normally, prints nothing, shows exactly one
    figure, and leaves one new object behind, the classified table. *)
Theorem main_shows_one_figure (w : world) (d : DataFrame) (n : nat)
    (st ts ms : Series) (temps mags : list Q) :
  files w !! "6 class csv.csv" = Some (ReadOk d) →
  Forall (λ col, is_Some (d !! col)) required_columns →
  map_Forall (λ _ s, length s = n) d →
  d !! "Star type" = Some st →
  Forall valid_code st →
  st ≠ [] →
  d !! "Temperature (K)" = Some ts →
  numbers ts = inr temps →
  d !! "Absolute magnitude(Mv)" = Some ms →
  numbers ms = inr mags →
  ∃ df fig,
    heap w !! df = None
    ∧ hr_figure (enriched d st) = inr fig
    ∧ main w
      = (mkWorld (files w) (<[df := enriched d st]> (heap w)) (stdout w)
           (shown w ++ [fig]), inr ()).
Proof.
  intros Hfile Hcols Hwf Hst Hvalid Hne Hts Htemps Hms Hmags.
  destruct (classified_figure d n st ts ms temps mags) as (fig & Hfig & _); try done.
  exists (fresh (dom (heap w))), fig.
  split; [apply fresh_loc_unused|]. split; [done|].
  unfold main, main_with.
  erewrite bind_ok; [|by apply load_data_accepts]. cbv beta iota.
  erewrite bind_ok;
    [|apply (map_star_types_ok _ d st); [apply lookup_insert_eq|done|done]].
  erewrite plot_hr_diagram_shows; [|apply lookup_insert_eq|exact Hfig].
  cbn [files heap stdout shown set_heap]. by rewrite insert_insert_eq.
Qed.

Lemma main_shows_one_figure_witness :
  ∃ df fig,
    hr_figure (enriched six_stars six_codes) = inr fig
    ∧ main six_stars_file
      = (mkWorld (files six_stars_file) (<[df := enriched six_stars six_codes]> ∅)
           [] [fig], inr ()).
Proof.
  destruct (main_shows_one_figure six_stars_file six_stars 6%nat six_codes
              (VInt <$> [3000; 40000; 3500; 8500; 6100; 4200])
              [VFloat (15 # 1); VInt (-10); VFloat (1402 # 100); VFloat (1205 # 100);
               VFloat (45 # 10); VFloat (-3 # 10)]
              six_temps six_mags)
    as (df & fig & Hfresh & Hfig & Hmain).
  - by vm_compute.
  - apply (bool_decide_unpack _). by vm_compute.
  - apply (bool_decide_unpack _). by vm_compute.
  - by vm_compute.
  - apply (bool_decide_unpack _). by vm_compute.
  - done.
  - by vm_compute.
  - by vm_compute.
  - by vm_compute.
  - by vm_compute.
  - exists df, fig. split; [exact Hfig|exact Hmain].
Defined.

(** X11. Only the loader catches exceptions.  When the file of [main]
    holds the five required columns but some star-type code is not
    recognised, the [KeyError] of the classifier leaves [main] uncaught:
    nothing is printed, nothing is shown, and the loaded table is left
    without any derived column. *)
Theorem main_classification_error (w : world) (d : DataFrame) (st : Series) :
  files w !! "6 class csv.csv" = Some (ReadOk d) →
  Forall (λ col, is_Some (d !! col)) required_columns →
  d !! "Star type" = Some st →
  Exists (λ x, ¬ valid_code x) st →
  ∃ df k,
    heap w !! df = None
    ∧ k ∈ st ∧ ¬ valid_code k
    ∧ main w
      = (mkWorld (files w) (<[df := d]> (heap w)) (stdout w) (shown w),
         inl (KeyError k)).
Proof.
  intros Hfile Hcols Hst Hbad.
  destruct (map_star_types_raises (fresh (dom (heap w))) d st
              (set_heap (<[fresh (dom (heap w)) := d]> (heap w)) w))
    as (k & Hin & Hk & Hrun); [apply lookup_insert_eq|done|done|].
  exists (fresh (dom (heap w))), k.
  split; [apply fresh_loc_unused|]. split; [done|]. split; [done|].
  unfold main, main_with.
  erewrite bind_ok; [|by apply load_data_accepts]. cbv beta iota.
  erewrite bind_raise; [|exact Hrun]. reflexivity.
Qed.

Lemma main_classification_error_witness :
  ∃ df k,
    main bad_code_file
    = (mkWorld (files bad_code_file) (<[df := bad_code_table]> ∅) [] [],
       inl (KeyError k)).
Proof.
  destruct (main_classification_error bad_code_file bad_code_table
              (VInt <$> [0; 7; 1; 2; 3; 4]))
    as (df & k & _ & _ & _ & Hmain).
  - by vm_compute.
  - apply (bool_decide_unpack _). by vm_compute.
  - by vm_compute.
  - apply (bool_decide_unpack _). by vm_compute.
  - exists df, k. exact Hmain.
Defined.
